(** * pgrds: resolution of extension properties (utils.c)

    A shallow embedding of [utils.c]: the reader of an extension's control
    file, the catalog lookup of an installed extension's version, and the
    routine that fills in the schema, old version and new version of a
    CREATE / ALTER EXTENSION statement.

    The C functions write through [char **] out-parameters and leave by
    [ereport(ERROR, ...)], which does not return.  Both effects are kept:
    a computation is a function from the cells it may write to the cells
    after the run together with the way the run ended. *)

From Stdlib Require Import String Ascii List Bool Arith NArith ZArith Lia Permutation.
Import ListNotations.
Open Scope string_scope.

(** ** Error reports *)

Module Elog.

Inductive SqlState : Type :=
| ERRCODE_UNDEFINED_OBJECT
| ERRCODE_UNDEFINED_SCHEMA
| ERRCODE_INTERNAL_ERROR        (* what elog(ERROR, ...) reports *)
| ERRCODE_CONFIG_FILE_ERROR     (* raised inside the configuration parser *)
| errcode_for_file_access.      (* chosen by the server from errno *)

Record ErrorData : Type := mkError { sqlerrcode : SqlState; message : string }.

(** How a run ends: it returns, it leaves through [ereport(ERROR)], or it
    applies [strVal] to a node that is not a string, which C leaves without
    a meaning as a string. *)
Inductive result (A : Type) : Type :=
| Return (a : A)
| Error (e : ErrorData)
| Undefined.

Arguments Return {A} a.
Arguments Error {A} e.
Arguments Undefined {A}.

(** The double-quote character that the messages put around names. *)
Definition dquote : string := String (ascii_of_nat 34) EmptyString.
Definition quoted (s : string) : string := dquote ++ s ++ dquote.

End Elog.
Import Elog.

(** ** Computations over out-parameters *)

Module Cells.

Definition M (S A : Type) : Type := S -> S * result A.

Definition ret {S A} (a : A) : M S A := fun s => (s, Return a).

Definition bind {S A B} (m : M S A) (k : A -> M S B) : M S B :=
  fun s =>
    match m s with
    | (s', Return a) => k a s'
    | (s', Error e) => (s', Error e)
    | (s', Undefined) => (s', Undefined)
    end.

Definition get {S} : M S S := fun s => (s, Return s).
Definition modify {S} (f : S -> S) : M S unit := fun s => (f s, Return tt).

(** [ereport(ERROR, (errcode(c), errmsg(m)))] *)
Definition ereport {S A} (c : SqlState) (m : string) : M S A :=
  fun s => (s, Error (mkError c m)).
Definition rethrow {S A} (e : ErrorData) : M S A := fun s => (s, Error e).
Definition undefined {S A} : M S A := fun s => (s, Undefined).

End Cells.
Import Cells.

Declare Scope cells_scope.
Delimit Scope cells_scope with cells.
Notation "x <- c1 ;; c2" := (bind c1 (fun x => c2))
  (at level 61, c1 at next level, right associativity) : cells_scope.
Notation "c1 ;; c2" := (bind c1 (fun _ => c2))
  (at level 61, right associativity) : cells_scope.
Open Scope cells_scope.

(** ** Data of the server that the code reads *)

Definition Oid : Type := N.

(** One [name = value] entry of a parsed configuration file. *)
Record ConfigVariable : Type := mkConfigVariable { name : string; value : string }.

(** Value nodes of the parse tree, as the grammar attaches them to options:
    a string for SCHEMA, VERSION and FROM, an integer for flags. *)
Inductive Value : Type :=
| String_ (str : string)
| Integer_ (ival : Z).

Record DefElem : Type := mkDefElem { defname : string; arg : option Value }.

(** A row of the catalog pg_extension, with the two columns read here. *)
Record pg_extension_row : Type :=
  mkRow { extname_of : string; extversion : option string }.

(** An open file is represented by its content. *)
Definition FILE : Type := string.

(** What the functions of [utils.c] ask of the server.
    - [sharepath]: what [get_share_path(my_exec_path, ...)] writes;
    - [AllocateFile]: [None] is the NULL of a failed open;
    - [ParseConfigFp]: the configuration-file parser, called at level ERROR,
      so that it either throws or yields the entries in file order;
    - [fetch_search_path], [get_namespace_name]: the namespace machinery;
    - [pg_extension]: the rows of the catalog as the scan sees them. *)
Record World : Type := mkWorld {
  sharepath : string;
  AllocateFile : string -> option FILE;
  ParseConfigFp : FILE -> string -> ErrorData + list ConfigVariable;
  fetch_search_path : bool -> list Oid;
  get_namespace_name : Oid -> option string;
  pg_extension : list pg_extension_row
}.

(** ** utils.h *)

Definition MAXPGPATH : nat := 1024.

(** [snprintf(buf, MAXPGPATH, ...)] keeps at most [MAXPGPATH - 1] characters. *)
Definition snprintf_MAXPGPATH (s : string) : string :=
  substring 0 (MAXPGPATH - 1) s.

(** ** parse_default_version_in_control_file *)

Definition control_filename (w : World) (extname : string) : string :=
  snprintf_MAXPGPATH (sharepath w ++ "/extension/" ++ extname ++ ".control").

(** The test [ptr == NULL]. *)
Definition is_null {A} (x : option A) : bool :=
  match x with None => true | Some _ => false end.

(** Body of the loop over the parsed entries; the state is the pair of cells
    [( *version, *schema )]. *)
Definition scan_item (cells : option string * option string) (item : ConfigVariable)
  : option string * option string :=
  let '(version, schema) := cells in
  if is_null version && (name item =? "default_version") then
    (Some (value item), schema)
  else if is_null schema && (name item =? "schema") then
    (version, Some (value item))
  else cells.

Definition parse_default_version_in_control_file (w : World) (extname : string)
  : M (option string * option string) unit :=
  let filename := control_filename w extname in
  match AllocateFile w filename with
  | None =>
      ereport errcode_for_file_access
        ("could not open extension control file " ++ quoted filename ++ ": %m")
  | Some file =>
      match ParseConfigFp w file filename with
      | inl e => rethrow e
      | inr head => modify (fun cells => fold_left scan_item head cells)
      end
  end.

(** ** get_extension_current_version *)

(** The index scan on the extension's name: the first row that matches. *)
Definition systable_getnext (w : World) (extname : string) : option pg_extension_row :=
  find (fun row => extname_of row =? extname) (pg_extension w).

Definition get_extension_current_version (w : World) (extname : string)
  : result string :=
  match systable_getnext w extname with
  | None =>
      Error (mkError ERRCODE_UNDEFINED_OBJECT
               ("extension " ++ quoted extname ++ " does not exist"))
  | Some extTup =>
      match extversion extTup with
      | None => Error (mkError ERRCODE_INTERNAL_ERROR "extversion is null")
      | Some oldVersionName => Return oldVersionName
      end
  end.

(** ** fill_in_extension_properties *)

(** The three cells behind [char **schema], [**old_version], [**new_version]. *)
Record Properties : Type := mkProperties {
  schema : option string;
  old_version : option string;
  new_version : option string
}.

(** The locals [d_schema], [d_new_version], [d_old_version]. *)
Record OptionRefs : Type := mkRefs {
  d_schema : option DefElem;
  d_new_version : option DefElem;
  d_old_version : option DefElem
}.

(** Body of [foreach(lc, options)]. *)
Definition note_option (refs : OptionRefs) (defel : DefElem) : OptionRefs :=
  if defname defel =? "schema" then
    mkRefs (Some defel) (d_new_version refs) (d_old_version refs)
  else if defname defel =? "new_version" then
    mkRefs (d_schema refs) (Some defel) (d_old_version refs)
  else if defname defel =? "old_version" then
    mkRefs (d_schema refs) (d_new_version refs) (Some defel)
  else refs.

Definition strVal {S} (v : Value) : M S string :=
  match v with
  | String_ s => ret s
  | Integer_ _ => undefined
  end.

(** [if (d && d->arg) *cell = strVal(d->arg);] *)
Definition assign_from (d : option DefElem) (store : string -> Properties -> Properties)
  : M Properties unit :=
  match d with
  | Some defel =>
      match arg defel with
      | Some v => s <- strVal v ;; modify (store s)
      | None => ret tt
      end
  | None => ret tt
  end.

Definition set_schema (s : option string) (p : Properties) : Properties :=
  mkProperties s (old_version p) (new_version p).
Definition set_old_version (s : option string) (p : Properties) : Properties :=
  mkProperties (schema p) s (new_version p).
Definition set_new_version (s : option string) (p : Properties) : Properties :=
  mkProperties (schema p) (old_version p) s.

(** The call [parse_default_version_in_control_file(extname, new_version,
    schema)]: the callee's two cells are the caller's. *)
Definition on_new_version_and_schema (m : M (option string * option string) unit)
  : M Properties unit :=
  fun p =>
    match m (new_version p, schema p) with
    | ((v, s), r) => (mkProperties s (old_version p) v, r)
    end.

Definition no_schema_selected {A} : M Properties A :=
  ereport ERRCODE_UNDEFINED_SCHEMA "no schema has been selected to create in".

Definition fill_in_extension_properties
  (w : World) (extname : string) (options : list DefElem) : M Properties unit :=
  let refs := fold_left note_option options (mkRefs None None None) in
  assign_from (d_schema refs) (fun s => set_schema (Some s)) ;;
  assign_from (d_old_version refs) (fun s => set_old_version (Some s)) ;;
  assign_from (d_new_version refs) (fun s => set_new_version (Some s)) ;;
  p <- get ;;
  (if is_null (new_version p) || is_null (schema p)
   then on_new_version_and_schema (parse_default_version_in_control_file w extname)
   else ret tt) ;;
  p <- get ;;
  if is_null (schema p) then
    match fetch_search_path w false with
    | [] => no_schema_selected
    | schemaOid :: _ =>
        modify (set_schema (get_namespace_name w schemaOid)) ;;
        p <- get ;;
        if is_null (schema p) then no_schema_selected else ret tt
    end
  else ret tt.

(** ** Sample runs *)

Module Samples.

Definition hstore_control : string := "/usr/share/postgresql/extension/hstore.control".

(** A server with one control file, for hstore. *)
Definition server (items : list ConfigVariable) (path : list Oid) : World :=
  mkWorld "/usr/share/postgresql"
    (fun f => if f =? hstore_control then Some "hstore" else None)
    (fun _ _ => inr items)
    (fun _ => path)
    (fun oid => if (oid =? 2200)%N then Some "public"
                else if (oid =? 16384)%N then Some "app" else None)
    [mkRow "hstore" (Some "1.1"); mkRow "broken" None].

Definition unset : Properties := mkProperties None None None.

Definition str_opt (k v : string) : DefElem := mkDefElem k (Some (String_ v)).
Definition cascade : DefElem := mkDefElem "cascade" (Some (Integer_ 1)).

(** A control file that names no default version and no schema. *)
Definition bare_items : list ConfigVariable :=
  [mkConfigVariable "comment" "data type for sets of (key, value) pairs";
   mkConfigVariable "relocatable" "true"].

Definition public_first : list Oid := [2200%N; 16384%N].

(** Another server: the same control file for hstore and the same schemas
    on the search path, but other files, another catalog, other schemas
    elsewhere and implicit entries in the full search path. *)
Definition replica (items : list ConfigVariable) (path : list Oid) : World :=
  mkWorld "/usr/share/postgresql"
    (fun f => if f =? hstore_control then Some "hstore" else Some "other")
    (fun file _ =>
       if file =? "hstore" then inr items
       else inl (mkError ERRCODE_CONFIG_FILE_ERROR "syntax error"))
    (fun implicit => if implicit then 11%N :: path else path)
    (fun oid => if (oid =? 2200)%N then Some "public"
                else if (oid =? 16384)%N then Some "app" else Some "scratch")
    [mkRow "hstore" (Some "1.0")].

End Samples.

(** ** Vocabulary of the statements

    The option list is read as a mapping in which the last entry of a name
    governs; a control file is read for the first entry of a name. *)

Definition last_entry (key : string) (options : list DefElem) : option DefElem :=
  find (fun d => defname d =? key) (rev options).

(** The argument of the governing entry; [None] when the option is not in
    the list or carries no argument. *)
Definition option_arg (key : string) (options : list DefElem) : option Value :=
  match last_entry key options with
  | Some d => arg d
  | None => None
  end.

Definition string_or_null (a : option Value) : bool :=
  match a with
  | Some (Integer_ _) => false
  | _ => true
  end.

(** Every argument that the function reads with [strVal] is a string node. *)
Definition strings_only (options : list DefElem) : bool :=
  string_or_null (option_arg "schema" options)
  && string_or_null (option_arg "old_version" options)
  && string_or_null (option_arg "new_version" options).

Definition or_else {A} (a b : option A) : option A :=
  match a with Some _ => a | None => b end.

Definition option_string (key : string) (options : list DefElem) : option string :=
  match option_arg key options with
  | Some (String_ s) => Some s
  | _ => None
  end.

(** The cells once the options have been stored in them. *)
Definition after_options (options : list DefElem) (p : Properties) : Properties :=
  mkProperties (or_else (option_string "schema" options) (schema p))
               (or_else (option_string "old_version" options) (old_version p))
               (or_else (option_string "new_version" options) (new_version p)).

Definition recognized (key : string) : bool :=
  (key =? "schema") || (key =? "old_version") || (key =? "new_version").

(** The control file of [extname] can be read, and has these entries. *)
Definition control_file_is (w : World) (extname : string) (items : list ConfigVariable)
  : Prop :=
  exists file,
    AllocateFile w (control_filename w extname) = Some file
    /\ ParseConfigFp w file (control_filename w extname) = inr items.

(** The value of the first entry called [key]. *)
Definition declared (key : string) (items : list ConfigVariable) : option string :=
  option_map value (find (fun item => name item =? key) items).

Definition could_not_open (filename : string) : ErrorData :=
  mkError errcode_for_file_access
    ("could not open extension control file " ++ quoted filename ++ ": %m").

Definition no_schema_error : ErrorData :=
  mkError ERRCODE_UNDEFINED_SCHEMA "no schema has been selected to create in".


(** Two servers that show the same control file for [extname], the same
    search path and the same schemas behind its entries. *)
Definition same_inputs (w1 w2 : World) (extname : string) : Prop :=
  sharepath w1 = sharepath w2
  /\ AllocateFile w1 (control_filename w1 extname)
     = AllocateFile w2 (control_filename w1 extname)
  /\ (forall file, AllocateFile w1 (control_filename w1 extname) = Some file ->
        ParseConfigFp w1 file (control_filename w1 extname)
        = ParseConfigFp w2 file (control_filename w1 extname))
  /\ fetch_search_path w1 false = fetch_search_path w2 false
  /\ (forall oid, In oid (fetch_search_path w1 false) ->
        get_namespace_name w1 oid = get_namespace_name w2 oid).

(** The part of [fill_in_extension_properties] after the options have been
    stored: the defaults of the control file, then of the search path. *)
Definition defaulting (w : World) (extname : string) : M Properties unit :=
  p <- get ;;
  (if is_null (new_version p) || is_null (schema p)
   then on_new_version_and_schema (parse_default_version_in_control_file w extname)
   else ret tt) ;;
  p <- get ;;
  if is_null (schema p) then
    match fetch_search_path w false with
    | [] => no_schema_selected
    | schemaOid :: _ =>
        modify (set_schema (get_namespace_name w schemaOid)) ;;
        p <- get ;;
        if is_null (schema p) then no_schema_selected else ret tt
    end
  else ret tt.

Definition store_arg (a : option Value) (store : string -> Properties -> Properties)
  : M Properties unit :=
  match a with
  | Some v => s <- strVal v ;; modify (store s)
  | None => ret tt
  end.

(** [fill_in_extension_properties] as a function of the three governing
    arguments. *)
Definition resolve (w : World) (extname : string) (a_schema a_old a_new : option Value)
  : M Properties unit :=
  store_arg a_schema (fun s => set_schema (Some s)) ;;
  store_arg a_old (fun s => set_old_version (Some s)) ;;
  store_arg a_new (fun s => set_new_version (Some s)) ;;
  defaulting w extname.

(** The cells once the defaults of a control file have been stored. *)
Definition with_defaults (items : list ConfigVariable) (p : Properties) : Properties :=
  mkProperties (or_else (schema p) (declared "schema" items))
               (old_version p)
               (or_else (new_version p) (declared "default_version" items)).

(** The last part of [fill_in_extension_properties]: the schema of the
    search path. *)
Definition search_default (w : World) : M Properties unit :=
  p <- get ;;
  if is_null (schema p) then
    match fetch_search_path w false with
    | [] => no_schema_selected
    | schemaOid :: _ =>
        modify (set_schema (get_namespace_name w schemaOid)) ;;
        p <- get ;;
        if is_null (schema p) then no_schema_selected else ret tt
    end
  else ret tt.

(** ** Servers derived from a server *)

Definition with_parser (w : World)
  (parser : FILE -> string -> ErrorData + list ConfigVariable) : World :=
  mkWorld (sharepath w) (AllocateFile w) parser (fetch_search_path w)
    (get_namespace_name w) (pg_extension w).

Definition with_namespaces (w : World) (path : bool -> list Oid)
  (names : Oid -> option string) : World :=
  mkWorld (sharepath w) (AllocateFile w) (ParseConfigFp w) path names
    (pg_extension w).

Definition with_catalog (w : World) (rows : list pg_extension_row) : World :=
  mkWorld (sharepath w) (AllocateFile w) (ParseConfigFp w) (fetch_search_path w)
    (get_namespace_name w) rows.

(** The entries that the loop over a control file looks at. *)
Definition known_entry (item : ConfigVariable) : bool :=
  (name item =? "default_version") || (name item =? "schema").

(** The server whose control files are stripped of all other entries. *)
Definition only_known_entries (w : World) : World :=
  with_parser w
    (fun file filename =>
       match ParseConfigFp w file filename with
       | inl e => inl e
       | inr items => inr (filter known_entry items)
       end).

(** The name behind the first entry of the search path, if any. *)
Definition first_schema_name (w : World) : option string :=
  match fetch_search_path w false with
  | [] => None
  | schemaOid :: _ => get_namespace_name w schemaOid
  end.

(** A string of [n] times the character x, and a server installed below
    a directory of that name. *)
Fixpoint padding (n : nat) : string :=
  match n with
  | O => EmptyString
  | S n' => String "x" (padding n')
  end.

Definition deep_server : World :=
  mkWorld (String "/" (padding 1100)) (fun _ => None) (fun _ _ => inr [])
    (fun _ => []) (fun _ => None) [].

(** The cell that goes with an option name. *)
Definition cell (key : string) (p : Properties) : option string :=
  if key =? "schema" then schema p
  else if key =? "old_version" then old_version p
  else if key =? "new_version" then new_version p
  else None.


(** * Properties *)

(** ** The loop over the options *)

Lemma eqb_other (a b c : string) :
  (b =? c) = false -> (a =? b) = true -> (a =? c) = false.
Proof.
  intros Hbc Hab. apply String.eqb_eq in Hab. subst a. exact Hbc.
Qed.

Lemma last_entry_snoc key options d :
  last_entry key (options ++ [d])
  = if defname d =? key then Some d else last_entry key options.
Proof.
  unfold last_entry. rewrite rev_app_distr. reflexivity.
Qed.

Lemma note_options_last options :
  fold_left note_option options (mkRefs None None None)
  = mkRefs (last_entry "schema" options)
           (last_entry "new_version" options)
           (last_entry "old_version" options).
Proof.
  induction options as [| d options IH] using rev_ind.
  - reflexivity.
  - rewrite fold_left_app. simpl. rewrite IH.
    rewrite !last_entry_snoc. unfold note_option. simpl.
    destruct (defname d =? "schema") eqn:Es.
    + rewrite (eqb_other _ "schema" "new_version" eq_refl Es).
      rewrite (eqb_other _ "schema" "old_version" eq_refl Es). reflexivity.
    + destruct (defname d =? "new_version") eqn:En.
      * rewrite (eqb_other _ "new_version" "old_version" eq_refl En). reflexivity.
      * destruct (defname d =? "old_version"); reflexivity.
Qed.

Lemma assign_from_arg d store :
  assign_from d store
  = store_arg (match d with Some e => arg e | None => None end) store.
Proof.
  destruct d as [e |]; reflexivity.
Qed.

Lemma fill_in_by_args w extname options :
  fill_in_extension_properties w extname options
  = resolve w extname (option_arg "schema" options)
      (option_arg "old_version" options) (option_arg "new_version" options).
Proof.
  unfold fill_in_extension_properties, resolve, option_arg.
  rewrite note_options_last. simpl. rewrite !assign_from_arg. reflexivity.
Qed.

Lemma store_arg_string a store p :
  string_or_null a = true ->
  store_arg a store p
  = (match a with Some (String_ s) => store s p | _ => p end, Return tt).
Proof.
  destruct a as [[s | i] |]; simpl; intros H; try discriminate; reflexivity.
Qed.

Lemma resolve_strings w extname options p :
  strings_only options = true ->
  resolve w extname (option_arg "schema" options)
    (option_arg "old_version" options) (option_arg "new_version" options) p
  = defaulting w extname (after_options options p).
Proof.
  unfold strings_only. rewrite !andb_true_iff. intros [[Hs Ho] Hn].
  unfold resolve, bind.
  rewrite (store_arg_string _ _ _ Hs), (store_arg_string _ _ _ Ho),
    (store_arg_string _ _ _ Hn).
  f_equal. unfold after_options, option_string.
  destruct (option_arg "schema" options) as [[s | i] |],
    (option_arg "old_version" options) as [[o | j] |],
    (option_arg "new_version" options) as [[n | k] |];
    try discriminate; destruct p; reflexivity.
Qed.

Lemma fill_in_strings w extname options p :
  strings_only options = true ->
  fill_in_extension_properties w extname options p
  = defaulting w extname (after_options options p).
Proof.
  intros H. rewrite fill_in_by_args. now apply resolve_strings.
Qed.

(** ** The loop over the entries of the control file *)

Lemma scan_items items : forall version schema,
  fold_left scan_item items (version, schema)
  = (or_else version (declared "default_version" items),
     or_else schema (declared "schema" items)).
Proof.
  unfold declared.
  induction items as [| item items IH]; intros version schema.
  - destruct version, schema; reflexivity.
  - simpl.
    destruct (name item =? "default_version") eqn:Ev.
    + rewrite (eqb_other _ "default_version" "schema" eq_refl Ev).
      destruct version, schema; simpl; rewrite IH; reflexivity.
    + destruct (name item =? "schema") eqn:Es;
        destruct version, schema; simpl; rewrite IH; reflexivity.
Qed.

Lemma defaulting_search w extname p :
  defaulting w extname p
  = ((if is_null (new_version p) || is_null (schema p)
      then on_new_version_and_schema (parse_default_version_in_control_file w extname)
      else ret tt) ;; search_default w) p.
Proof. reflexivity. Qed.

Lemma with_defaults_set items p :
  is_null (new_version p) || is_null (schema p) = false ->
  with_defaults items p = p.
Proof.
  destruct p as [[s |] o [n |]]; simpl; intros H; try discriminate; reflexivity.
Qed.

Lemma defaulting_with_file w extname items p :
  control_file_is w extname items ->
  defaulting w extname p = search_default w (with_defaults items p).
Proof.
  intros [file [Hopen Hparse]]. rewrite defaulting_search. unfold bind.
  destruct (is_null (new_version p) || is_null (schema p)) eqn:Hneed.
  - unfold on_new_version_and_schema, parse_default_version_in_control_file.
    rewrite Hopen, Hparse. unfold modify. rewrite scan_items. reflexivity.
  - rewrite (with_defaults_set _ _ Hneed). reflexivity.
Qed.

Lemma defaulting_without_file w extname p :
  AllocateFile w (control_filename w extname) = None ->
  defaulting w extname p
  = (p, if is_null (new_version p) || is_null (schema p)
        then Error (could_not_open (control_filename w extname))
        else Return tt).
Proof.
  intros Hopen. rewrite defaulting_search. unfold bind.
  destruct p as [[s |] o [n |]]; simpl;
    unfold on_new_version_and_schema, parse_default_version_in_control_file;
    simpl; rewrite ?Hopen; reflexivity.
Qed.

(** ** The schema of the search path *)

Lemma search_default_set w p s :
  schema p = Some s -> search_default w p = (p, Return tt).
Proof.
  intros H. unfold search_default, bind, get. simpl. rewrite H. reflexivity.
Qed.

Lemma search_default_empty w p :
  schema p = None -> fetch_search_path w false = [] ->
  search_default w p = (p, Error no_schema_error).
Proof.
  intros H Hpath. unfold search_default, bind, get. simpl. rewrite H, Hpath.
  reflexivity.
Qed.

Lemma search_default_dropped w p oid rest :
  schema p = None -> fetch_search_path w false = oid :: rest ->
  get_namespace_name w oid = None ->
  search_default w p = (p, Error no_schema_error).
Proof.
  intros H Hpath Hname. unfold search_default, bind, get. simpl.
  rewrite H, Hpath. simpl. rewrite Hname. simpl.
  destruct p; simpl in *; subst; reflexivity.
Qed.

Lemma search_default_first w p oid rest s :
  schema p = None -> fetch_search_path w false = oid :: rest ->
  get_namespace_name w oid = Some s ->
  search_default w p = (set_schema (Some s) p, Return tt).
Proof.
  intros H Hpath Hname. unfold search_default, bind, get. simpl.
  rewrite H, Hpath. simpl. rewrite Hname. reflexivity.
Qed.

Lemma search_default_returns w p p' :
  search_default w p = (p', Return tt) ->
  schema p' <> None
  /\ old_version p' = old_version p
  /\ new_version p' = new_version p
  /\ (schema p <> None -> p' = p).
Proof.
  destruct (schema p) as [s |] eqn:Hs.
  - rewrite (search_default_set _ _ _ Hs). intros H. inversion H. subst p'.
    rewrite Hs. repeat split; congruence.
  - destruct (fetch_search_path w false) as [| oid rest] eqn:Hpath.
    + rewrite (search_default_empty _ _ Hs Hpath). discriminate.
    + destruct (get_namespace_name w oid) as [n |] eqn:Hname.
      * rewrite (search_default_first _ _ _ _ _ Hs Hpath Hname).
        intros H. inversion H. simpl. repeat split; congruence.
      * rewrite (search_default_dropped _ _ _ _ Hs Hpath Hname). discriminate.
Qed.

Lemma search_default_keeps_versions w p :
  new_version (fst (search_default w p)) = new_version p
  /\ old_version (fst (search_default w p)) = old_version p.
Proof.
  destruct (schema p) as [s |] eqn:Hs.
  - rewrite (search_default_set _ _ _ Hs). split; reflexivity.
  - destruct (fetch_search_path w false) as [| oid rest] eqn:Hpath.
    + rewrite (search_default_empty _ _ Hs Hpath). split; reflexivity.
    + destruct (get_namespace_name w oid) as [n |] eqn:Hname.
      * rewrite (search_default_first _ _ _ _ _ Hs Hpath Hname).
        split; reflexivity.
      * rewrite (search_default_dropped _ _ _ _ Hs Hpath Hname).
        split; reflexivity.
Qed.

(** ** Facts about the vocabulary *)

Lemma control_file_unique w extname items1 items2 :
  control_file_is w extname items1 -> control_file_is w extname items2 ->
  items1 = items2.
Proof.
  intros [f1 [Ho1 Hp1]] [f2 [Ho2 Hp2]]. congruence.
Qed.

Lemma declared_first key pre item post :
  Forall (fun it => name it <> key) pre -> name item = key ->
  declared key (pre ++ item :: post) = Some (value item).
Proof.
  unfold declared. intros Hpre Hitem.
  induction Hpre as [| it pre Hit _ IH]; simpl.
  - subst key. rewrite String.eqb_refl. reflexivity.
  - apply String.eqb_neq in Hit. rewrite Hit. exact IH.
Qed.

Lemma declared_none key items :
  Forall (fun it => name it <> key) items -> declared key items = None.
Proof.
  unfold declared.
  induction 1 as [| it items Hit _ IH]; simpl.
  - reflexivity.
  - apply String.eqb_neq in Hit. rewrite Hit. exact IH.
Qed.


Lemma last_entry_governing key d pre post :
  defname d = key -> Forall (fun e => defname e <> key) post ->
  last_entry key (pre ++ d :: post) = Some d.
Proof.
  intros Hd. induction post as [| e post IH] using rev_ind; intros Hpost.
  - rewrite last_entry_snoc.
    subst key. rewrite String.eqb_refl. reflexivity.
  - apply Forall_app in Hpost. destruct Hpost as [Hpost He].
    inversion He as [| ? ? Hne _]; subst.
    replace (pre ++ d :: post ++ [e])%list with ((pre ++ d :: post) ++ [e])%list
      by (rewrite <- app_assoc; reflexivity).
    rewrite last_entry_snoc. apply String.eqb_neq in Hne. rewrite Hne.
    now apply IH.
Qed.

Lemma last_entry_absent key options :
  Forall (fun e => defname e <> key) options -> last_entry key options = None.
Proof.
  induction options as [| e options IH] using rev_ind; intros H.
  - reflexivity.
  - apply Forall_app in H. destruct H as [H He].
    inversion He as [| ? ? Hne _]; subst.
    rewrite last_entry_snoc. apply String.eqb_neq in Hne. rewrite Hne.
    now apply IH.
Qed.

Lemma option_arg_governing key a pre post :
  Forall (fun e => defname e <> key) post ->
  option_arg key (pre ++ mkDefElem key a :: post) = a.
Proof.
  intros H. unfold option_arg.
  rewrite (last_entry_governing key (mkDefElem key a) pre post eq_refl H).
  reflexivity.
Qed.

Lemma last_entry_app key l1 l2 :
  last_entry key (l1 ++ l2) = or_else (last_entry key l2) (last_entry key l1).
Proof.
  induction l2 as [| e l2 IH] using rev_ind.
  - rewrite app_nil_r. reflexivity.
  - rewrite app_assoc, !last_entry_snoc.
    destruct (defname e =? key); [reflexivity | exact IH].
Qed.

Lemma last_entry_cons key d l :
  last_entry key (d :: l)
  = or_else (last_entry key l) (if defname d =? key then Some d else None).
Proof.
  change (d :: l) with ([d] ++ l)%list. rewrite last_entry_app.
  reflexivity.
Qed.

(** Entries that a filter drops do not matter for a key that it keeps. *)
Lemma last_entry_filter key (keep : DefElem -> bool) options :
  (forall d, defname d = key -> keep d = true) ->
  last_entry key (filter keep options) = last_entry key options.
Proof.
  intros Hkeep. induction options as [| d options IH]; [reflexivity |].
  simpl. destruct (keep d) eqn:Hd.
  - rewrite !last_entry_cons, IH. reflexivity.
  - rewrite last_entry_cons, IH.
    destruct (defname d =? key) eqn:Hk.
    + apply String.eqb_eq in Hk. rewrite (Hkeep d Hk) in Hd. discriminate.
    + destruct (last_entry key options); reflexivity.
Qed.

Lemma last_entry_filtered_out key (keep : DefElem -> bool) options :
  (forall d, defname d = key -> keep d = false) ->
  last_entry key (filter keep options) = None.
Proof.
  intros Hdrop. apply last_entry_absent. apply Forall_forall.
  intros d Hin Hk. apply filter_In in Hin. destruct Hin as [_ Hd].
  rewrite (Hdrop d Hk) in Hd. discriminate.
Qed.

Lemma last_entry_present key options :
  Exists (fun e => defname e = key) options ->
  exists e, last_entry key options = Some e.
Proof.
  intros H. apply Exists_exists in H. destruct H as [e [Hin Hk]].
  unfold last_entry.
  destruct (find (fun d => defname d =? key) (rev options)) as [e' |] eqn:Hfind.
  - now exists e'.
  - apply in_rev in Hin. apply (find_none _ _ Hfind) in Hin.
    apply String.eqb_neq in Hin. contradiction.
Qed.

Lemma fill_in_same_args w extname options1 options2 :
  option_arg "schema" options1 = option_arg "schema" options2 ->
  option_arg "old_version" options1 = option_arg "old_version" options2 ->
  option_arg "new_version" options1 = option_arg "new_version" options2 ->
  fill_in_extension_properties w extname options1
  = fill_in_extension_properties w extname options2.
Proof.
  intros Hs Ho Hn. rewrite !fill_in_by_args, Hs, Ho, Hn. reflexivity.
Qed.

(** A governing entry without argument counts like no entry at all. *)
Lemma option_arg_null_dropped key d pre post :
  arg d = None ->
  Forall (fun e => defname e <> defname d) post ->
  option_arg key (pre ++ d :: post)
  = option_arg key (filter (fun e => negb (defname e =? defname d)) (pre ++ d :: post)).
Proof.
  intros Hnull Hpost. unfold option_arg.
  destruct (defname d =? key) eqn:Hk.
  - apply String.eqb_eq in Hk.
    rewrite (last_entry_governing key d pre post Hk) by (now rewrite <- Hk).
    rewrite last_entry_filtered_out; [exact Hnull |].
    intros e He. rewrite He, <- Hk, String.eqb_refl. reflexivity.
  - rewrite last_entry_filter; [reflexivity |].
    intros e He. rewrite He, String.eqb_sym, Hk. reflexivity.
Qed.

(** An entry that is not the governing one of its name can be removed. *)
Lemma option_arg_shadowed key d pre post :
  Exists (fun e => defname e = defname d) post ->
  option_arg key (pre ++ d :: post) = option_arg key (pre ++ post).
Proof.
  intros Hpost. unfold option_arg.
  rewrite !last_entry_app, last_entry_cons.
  destruct (defname d =? key) eqn:Hk.
  - apply String.eqb_eq in Hk. rewrite Hk in Hpost.
    destruct (last_entry_present _ _ Hpost) as [e He]. rewrite He. reflexivity.
  - destruct (last_entry key post); reflexivity.
Qed.

Lemma option_arg_null_alone key d pre post :
  arg d = None ->
  Forall (fun e => defname e <> defname d) pre ->
  Forall (fun e => defname e <> defname d) post ->
  option_arg key (pre ++ d :: post) = option_arg key (pre ++ post).
Proof.
  intros Hnull Hpre Hpost. unfold option_arg.
  rewrite !last_entry_app, last_entry_cons.
  destruct (defname d =? key) eqn:Hk.
  - apply String.eqb_eq in Hk. rewrite Hk in Hpre, Hpost.
    rewrite (last_entry_absent _ _ Hpre), (last_entry_absent _ _ Hpost).
    exact Hnull.
  - destruct (last_entry key post); reflexivity.
Qed.

(** ** Servers that look the same *)

Lemma same_inputs_filename w1 w2 extname :
  same_inputs w1 w2 extname ->
  control_filename w1 extname = control_filename w2 extname.
Proof.
  intros [Hshare _]. unfold control_filename. now rewrite Hshare.
Qed.

Lemma search_default_same w1 w2 p :
  fetch_search_path w1 false = fetch_search_path w2 false ->
  (forall oid, In oid (fetch_search_path w1 false) ->
     get_namespace_name w1 oid = get_namespace_name w2 oid) ->
  search_default w1 p = search_default w2 p.
Proof.
  intros Hpath Hname. unfold search_default, bind, get. simpl.
  destruct (is_null (schema p)); [| reflexivity].
  rewrite <- Hpath.
  destruct (fetch_search_path w1 false) as [| oid rest]; [reflexivity |].
  rewrite (Hname oid (or_introl eq_refl)). reflexivity.
Qed.

Lemma defaulting_same w1 w2 extname p :
  same_inputs w1 w2 extname ->
  defaulting w1 extname p = defaulting w2 extname p.
Proof.
  intros Hsame. pose proof (same_inputs_filename _ _ _ Hsame) as Hname.
  destruct Hsame as [_ [Hopen [Hparse [Hpath Hschemas]]]].
  rewrite !defaulting_search. unfold bind.
  destruct (is_null (new_version p) || is_null (schema p));
    [| simpl; now apply search_default_same].
  unfold on_new_version_and_schema, parse_default_version_in_control_file.
  rewrite <- Hname, <- Hopen.
  destruct (AllocateFile w1 (control_filename w1 extname)) as [file |] eqn:Hfile;
    [| reflexivity].
  rewrite <- (Hparse file eq_refl).
  destruct (ParseConfigFp w1 file (control_filename w1 extname)) as [e | items];
    simpl; [reflexivity |].
  destruct (fold_left scan_item items (new_version p, schema p)) as [v s].
  apply search_default_same; assumption.
Qed.

(** ** The catalog scan *)

Lemma systable_getnext_none w extname :
  (forall row, In row (pg_extension w) -> extname_of row <> extname) ->
  systable_getnext w extname = None.
Proof.
  intros Hrows. unfold systable_getnext.
  destruct (find (fun row => extname_of row =? extname) (pg_extension w))
    as [row |] eqn:Hfind; [| reflexivity].
  apply find_some in Hfind. destruct Hfind as [Hin Heq].
  apply String.eqb_eq in Heq. now apply Hrows in Hin.
Qed.

Lemma find_unique_row rows extname row :
  NoDup (map extname_of rows) -> In row rows -> extname_of row = extname ->
  find (fun r => extname_of r =? extname) rows = Some row.
Proof.
  induction rows as [| r rows IH]; intros Hnodup Hin Hname; [contradiction |].
  simpl in *. inversion Hnodup as [| ? ? Hfresh Hrest]; subst.
  destruct (extname_of r =? extname_of row) eqn:Heq.
  - destruct Hin as [Hin | Hin]; [now subst |].
    apply String.eqb_eq in Heq. exfalso. apply Hfresh. rewrite Heq.
    now apply in_map.
  - destruct Hin as [Hin | Hin].
    + subst r. rewrite String.eqb_refl in Heq. discriminate.
    + now apply IH.
Qed.

(** ** How a call ends *)

Lemma defaulting_defined w extname p : snd (defaulting w extname p) <> Undefined.
Proof.
  rewrite defaulting_search. unfold bind.
  assert (Hsearch : forall q, snd (search_default w q) <> Undefined).
  { intros q. unfold search_default, bind, get. simpl.
    destruct (schema q); simpl; [discriminate |].
    destruct (fetch_search_path w false) as [| oid rest]; simpl; [discriminate |].
    destruct (get_namespace_name w oid); simpl; discriminate. }
  destruct (is_null (new_version p) || is_null (schema p)).
  - unfold on_new_version_and_schema, parse_default_version_in_control_file.
    destruct (AllocateFile w (control_filename w extname)) as [file |];
      simpl; [| discriminate].
    destruct (ParseConfigFp w file (control_filename w extname)) as [e | items];
      simpl; [discriminate |].
    destruct (fold_left scan_item items (new_version p, schema p)). apply Hsearch.
  - simpl. apply Hsearch.
Qed.

Lemma fill_in_undefined w extname options p :
  strings_only options = false ->
  snd (fill_in_extension_properties w extname options p) = Undefined.
Proof.
  rewrite fill_in_by_args. unfold strings_only, resolve, bind.
  destruct (option_arg "schema" options) as [[s | i] |]; simpl;
    try reflexivity;
    (destruct (option_arg "old_version" options) as [[o | j] |]; simpl;
     try reflexivity;
     (destruct (option_arg "new_version" options) as [[n | k] |]; simpl;
      try reflexivity; discriminate)).
Qed.

Lemma fill_in_defined_iff w extname options p :
  snd (fill_in_extension_properties w extname options p) <> Undefined
  <-> strings_only options = true.
Proof.
  split.
  - intros H. destruct (strings_only options) eqn:Hs; [reflexivity |].
    contradiction H. now apply fill_in_undefined.
  - intros H. rewrite (fill_in_strings _ _ _ _ H). apply defaulting_defined.
Qed.

Lemma fill_in_returns w extname options p p' :
  fill_in_extension_properties w extname options p = (p', Return tt) ->
  strings_only options = true
  /\ ((is_null (new_version (after_options options p))
       || is_null (schema (after_options options p)) = false
       /\ p' = after_options options p)
      \/ (is_null (new_version (after_options options p))
          || is_null (schema (after_options options p)) = true
          /\ exists items,
               control_file_is w extname items
               /\ search_default w (with_defaults items (after_options options p))
                  = (p', Return tt))).
Proof.
  intros Hrun.
  assert (Hs : strings_only options = true).
  { apply (fill_in_defined_iff w extname options p). rewrite Hrun. discriminate. }
  split; [exact Hs |].
  rewrite (fill_in_strings _ _ _ _ Hs) in Hrun.
  set (q := after_options options p) in *.
  destruct (is_null (new_version q) || is_null (schema q)) eqn:Hneed.
  - right. split; [reflexivity |].
    destruct (AllocateFile w (control_filename w extname)) as [file |] eqn:Hopen.
    + destruct (ParseConfigFp w file (control_filename w extname))
        as [e | items] eqn:Hparse.
      * exfalso. revert Hrun. rewrite defaulting_search. unfold bind.
        rewrite Hneed.
        unfold on_new_version_and_schema, parse_default_version_in_control_file.
        rewrite Hopen, Hparse. discriminate.
      * exists items.
        assert (Hfile : control_file_is w extname items) by (exists file; auto).
        split; [exact Hfile |].
        now rewrite <- (defaulting_with_file _ _ _ q Hfile).
    + exfalso. rewrite (defaulting_without_file _ _ _ Hopen), Hneed in Hrun.
      discriminate.
  - left. split; [reflexivity |].
    revert Hrun. rewrite defaulting_search. unfold bind. rewrite Hneed.
    destruct q as [[s |] o [n |]]; try discriminate.
    simpl.
    rewrite (search_default_set w (mkProperties (Some s) o (Some n)) s eq_refl).
    congruence.
Qed.

(** ** The cells of a call that returned *)

Lemma search_default_unset w p :
  schema p = None ->
  search_default w p
  = match first_schema_name w with
    | Some s => (set_schema (Some s) p, Return tt)
    | None => (p, Error no_schema_error)
    end.
Proof.
  intros Hs. unfold first_schema_name.
  destruct (fetch_search_path w false) as [| oid rest] eqn:Hpath.
  - now apply search_default_empty.
  - destruct (get_namespace_name w oid) as [n |] eqn:Hname.
    + now apply (search_default_first w p oid rest n).
    + now apply (search_default_dropped w p oid rest).
Qed.



Lemma returned_cells w extname options p p' items :
  fill_in_extension_properties w extname options p = (p', Return tt) ->
  control_file_is w extname items ->
  schema p'
  = or_else (option_string "schema" options)
      (or_else (schema p)
         (or_else (declared "schema" items) (first_schema_name w)))
  /\ new_version p'
     = or_else (option_string "new_version" options)
         (or_else (new_version p) (declared "default_version" items))
  /\ old_version p'
     = or_else (option_string "old_version" options) (old_version p).
Proof.
  intros Hrun Hfile.
  assert (Hs : strings_only options = true).
  { apply (fill_in_defined_iff w extname options p). rewrite Hrun. discriminate. }
  rewrite (fill_in_strings _ _ _ _ Hs), (defaulting_with_file _ _ _ _ Hfile)
    in Hrun.
  revert Hrun. unfold after_options, with_defaults.
  cbn [schema old_version new_version].
  set (a := option_string "schema" options).
  set (b := option_string "old_version" options).
  set (c := option_string "new_version" options).
  intros Hrun.
  destruct (or_else (or_else a (schema p)) (declared "schema" items))
    as [s |] eqn:Hwd.
  - rewrite search_default_set with (s := s) in Hrun by reflexivity.
    inversion Hrun. subst p'. cbn [schema old_version new_version].
    repeat split.
    + destruct a, (schema p), (declared "schema" items);
        simpl in *; congruence.
    + destruct c, (new_version p); reflexivity.
  - rewrite search_default_unset in Hrun by reflexivity.
    destruct (first_schema_name w) as [n |]; [| discriminate].
    inversion Hrun. subst p'. cbn [schema old_version new_version set_schema].
    repeat split.
    + destruct a, (schema p), (declared "schema" items);
        simpl in *; congruence.
    + destruct c, (new_version p); reflexivity.
Qed.




Lemma option_string_same options1 options2 key :
  option_arg key options1 = option_arg key options2 ->
  option_string key options1 = option_string key options2.
Proof.
  unfold option_string. now intros ->.
Qed.

(** * The claims *)

Import Samples.

(** ** C1 *)




(** ** C2 *)

(** C2, as stated, fails: no control file exists for the extension, yet the
    options give both the schema and the version, and the call returns. *)
Lemma control_file_not_consulted :
  ~ (AllocateFile (server [] []) (control_filename (server [] []) "nope") = None ->
     exists p',
       fill_in_extension_properties (server [] []) "nope"
         [str_opt "schema" "a"; str_opt "new_version" "3"] unset
       = (p', Error (could_not_open (control_filename (server [] []) "nope")))).
Proof.
  intros H. destruct (H eq_refl) as [p' Hrun]. discriminate Hrun.
Qed.

(** C2, amended: when the control file cannot be opened, the call ends in
    the file-access error, without returning, exactly when new_version or
    schema is still unset once the options have been stored; when both are
    set by then, the file is not opened and the call returns.  In both
    cases the cells hold what the options stored. *)
Theorem missing_control_file w extname options p :
  AllocateFile w (control_filename w extname) = None ->
  strings_only options = true ->
  fill_in_extension_properties w extname options p
  = (after_options options p,
     if is_null (new_version (after_options options p))
        || is_null (schema (after_options options p))
     then Error (could_not_open (control_filename w extname))
     else Return tt).
Proof.
  intros Hopen Hs. rewrite (fill_in_strings _ _ _ _ Hs).
  now apply defaulting_without_file.
Qed.

Lemma missing_control_file_witness :
  fill_in_extension_properties (server [] public_first) "nope"
    [str_opt "old_version" "0.9"; cascade] unset
  = (mkProperties None (Some "0.9") None,
     Error (could_not_open "/usr/share/postgresql/extension/nope.control")).
Proof.
  apply (missing_control_file (server [] public_first) "nope"
           [str_opt "old_version" "0.9"; cascade] unset); reflexivity.
Defined.

(** ** C3 *)

(** C3: an option list whose governing new_version entry carries the string
    [v] resolves new_version to [v], and one whose governing schema entry
    carries [s] resolves schema to [s], on every server, whatever its
    control files hold.  When both are given (and old_version, if given,
    is a string) the call returns on every server with exactly the cells
    that the options stored. *)
Theorem options_take_precedence w extname p :
  (forall pre post v p',
      Forall (fun d => defname d <> "new_version") post ->
      fill_in_extension_properties w extname
        (pre ++ mkDefElem "new_version" (Some (String_ v)) :: post) p
      = (p', Return tt) ->
      new_version p' = Some v)
  /\ (forall pre post s p',
        Forall (fun d => defname d <> "schema") post ->
        fill_in_extension_properties w extname
          (pre ++ mkDefElem "schema" (Some (String_ s)) :: post) p
        = (p', Return tt) ->
        schema p' = Some s)
  /\ (forall options s v,
        option_arg "schema" options = Some (String_ s) ->
        option_arg "new_version" options = Some (String_ v) ->
        string_or_null (option_arg "old_version" options) = true ->
        fill_in_extension_properties w extname options p
        = (mkProperties (Some s)
             (or_else (option_string "old_version" options) (old_version p))
             (Some v),
           Return tt)).
Proof.
  split; [| split].
  - intros pre post v p' Hpost Hrun. apply fill_in_returns in Hrun.
    destruct Hrun as [_ Hrun].
    assert (Hq : new_version
                   (after_options
                      (pre ++ mkDefElem "new_version" (Some (String_ v)) :: post) p)
                 = Some v).
    { unfold after_options, option_string. cbn [new_version].
      rewrite (option_arg_governing _ _ _ _ Hpost). reflexivity. }
    destruct Hrun as [[_ Hp'] | [_ [items [_ Hsearch]]]].
    + subst p'. exact Hq.
    + apply search_default_returns in Hsearch.
      destruct Hsearch as [_ [_ [Hversion _]]]. rewrite Hversion.
      unfold with_defaults. cbn [new_version]. rewrite Hq. reflexivity.
  - intros pre post s p' Hpost Hrun. apply fill_in_returns in Hrun.
    destruct Hrun as [_ Hrun].
    assert (Hq : schema
                   (after_options
                      (pre ++ mkDefElem "schema" (Some (String_ s)) :: post) p)
                 = Some s).
    { unfold after_options, option_string. cbn [schema].
      rewrite (option_arg_governing _ _ _ _ Hpost). reflexivity. }
    destruct Hrun as [[_ Hp'] | [_ [items [_ Hsearch]]]].
    + subst p'. exact Hq.
    + apply search_default_returns in Hsearch.
      destruct Hsearch as [_ [_ [_ Hsame]]].
      rewrite Hsame; unfold with_defaults; cbn [schema]; rewrite Hq;
        [reflexivity | discriminate].
  - intros options s v Hschema Hversion Hold.
    assert (Hs : strings_only options = true).
    { unfold strings_only. rewrite Hschema, Hversion, Hold. reflexivity. }
    rewrite (fill_in_strings _ _ _ _ Hs). rewrite defaulting_search.
    unfold after_options, option_string, bind. rewrite Hschema, Hversion.
    simpl.
    apply (search_default_set w
             (mkProperties (Some s)
                (or_else
                   match option_arg "old_version" options with
                   | Some (String_ o) => Some o
                   | _ => None
                   end (old_version p))
                (Some v)) s eq_refl).
Qed.

Lemma options_take_precedence_witness :
  new_version (mkProperties (Some "public") (Some "0.9") (Some "1.0")) = Some "1.0"
  /\ schema (mkProperties (Some "extensions") None (Some "1.1")) = Some "extensions"
  /\ fill_in_extension_properties (server [] []) "nope"
       [str_opt "schema" "a"; str_opt "new_version" "3"] unset
     = (mkProperties (Some "a") None (Some "3"), Return tt).
Proof.
  split; [| split].
  - apply (proj1 (options_take_precedence
                    (server [mkConfigVariable "default_version" "1.1"] public_first)
                    "hstore" unset)
             [cascade] [str_opt "old_version" "0.9"] "1.0").
    + repeat constructor; discriminate.
    + reflexivity.
  - apply (proj1 (proj2 (options_take_precedence
                    (server [mkConfigVariable "schema" "pg_catalog";
                             mkConfigVariable "default_version" "1.1"] public_first)
                    "hstore" unset))
             [] [cascade] "extensions").
    + repeat constructor; discriminate.
    + reflexivity.
  - apply (proj2 (proj2 (options_take_precedence (server [] []) "nope" unset))
             [str_opt "schema" "a"; str_opt "new_version" "3"] "a" "3");
      reflexivity.
Defined.

(** ** C4 *)

(** C4: of several entries of a control file with the same recognized name
    the first in file order is the one kept.  If the version is not given
    otherwise, new_version becomes the value of the first default_version
    entry, however the call then ends; if the schema is not given
    otherwise, the call returns with the value of the first schema entry. *)
Theorem first_occurrence_wins w extname options p pre v post :
  strings_only options = true ->
  (control_file_is w extname
     (pre ++ mkConfigVariable "default_version" v :: post) ->
   Forall (fun item => name item <> "default_version") pre ->
   option_arg "new_version" options = None ->
   new_version p = None ->
   new_version (fst (fill_in_extension_properties w extname options p)) = Some v)
  /\ (control_file_is w extname (pre ++ mkConfigVariable "schema" v :: post) ->
      Forall (fun item => name item <> "schema") pre ->
      option_arg "schema" options = None ->
      schema p = None ->
      snd (fill_in_extension_properties w extname options p) = Return tt
      /\ schema (fst (fill_in_extension_properties w extname options p)) = Some v).
Proof.
  intros Hs. rewrite (fill_in_strings _ _ _ _ Hs). split.
  - intros Hfile Hpre Hopt Hcell.
    rewrite (defaulting_with_file _ _ _ _ Hfile).
    set (q := with_defaults _ _).
    assert (Hq : new_version q = Some v).
    { subst q. unfold with_defaults, after_options, option_string.
      cbn [new_version]. rewrite Hopt, Hcell. simpl.
      now rewrite (declared_first "default_version" pre
                     (mkConfigVariable "default_version" v) post Hpre eq_refl). }
    rewrite (proj1 (search_default_keeps_versions w q)). exact Hq.
  - intros Hfile Hpre Hopt Hcell.
    rewrite (defaulting_with_file _ _ _ _ Hfile).
    set (q := with_defaults _ _).
    assert (Hq : schema q = Some v).
    { subst q. unfold with_defaults, after_options, option_string.
      cbn [schema]. rewrite Hopt, Hcell. simpl.
      now rewrite (declared_first "schema" pre
                     (mkConfigVariable "schema" v) post Hpre eq_refl). }
    rewrite (search_default_set _ _ _ Hq). simpl. split; [reflexivity | exact Hq].
Qed.

Lemma first_occurrence_wins_witness :
  new_version
    (fst (fill_in_extension_properties
            (server [mkConfigVariable "default_version" "1.0";
                     mkConfigVariable "default_version" "2.0"] public_first)
            "hstore" [] unset))
  = Some "1.0"
  /\ (snd (fill_in_extension_properties
             (server [mkConfigVariable "comment" "two schemas";
                      mkConfigVariable "schema" "first";
                      mkConfigVariable "schema" "second"] [])
             "hstore" [cascade] unset)
      = Return tt
      /\ schema
           (fst (fill_in_extension_properties
                   (server [mkConfigVariable "comment" "two schemas";
                            mkConfigVariable "schema" "first";
                            mkConfigVariable "schema" "second"] [])
                   "hstore" [cascade] unset))
         = Some "first").
Proof.
  split.
  - apply (proj1 (first_occurrence_wins
                    (server [mkConfigVariable "default_version" "1.0";
                             mkConfigVariable "default_version" "2.0"] public_first)
                    "hstore" [] unset
                    [] "1.0" [mkConfigVariable "default_version" "2.0"] eq_refl)).
    + exists "hstore". split; reflexivity.
    + constructor.
    + reflexivity.
    + reflexivity.
  - apply (proj2 (first_occurrence_wins
                    (server [mkConfigVariable "comment" "two schemas";
                             mkConfigVariable "schema" "first";
                             mkConfigVariable "schema" "second"] [])
                    "hstore" [cascade] unset
                    [mkConfigVariable "comment" "two schemas"] "first"
                    [mkConfigVariable "schema" "second"] eq_refl)).
    + exists "hstore". split; reflexivity.
    + repeat constructor; discriminate.
    + reflexivity.
    + reflexivity.
Defined.

(** ** C5 *)

(** C5: with a readable control file without schema entry, no schema from
    the options and none from the caller, the call ends in the error
    "no schema has been selected to create in" exactly when the search path
    is empty or its first entry names no schema; the two cases give the
    same error report, and no other error can come out. *)
Theorem no_schema_selected_exactly w extname options p items :
  control_file_is w extname items ->
  Forall (fun item => name item <> "schema") items ->
  option_arg "schema" options = None ->
  schema p = None ->
  strings_only options = true ->
  (snd (fill_in_extension_properties w extname options p) = Error no_schema_error
   <-> fetch_search_path w false = []
       \/ exists oid rest,
            fetch_search_path w false = oid :: rest
            /\ get_namespace_name w oid = None)
  /\ (forall e,
        snd (fill_in_extension_properties w extname options p) = Error e ->
        e = no_schema_error).
Proof.
  intros Hfile Hitems Hopt Hcell Hs.
  rewrite (fill_in_strings _ _ _ _ Hs), (defaulting_with_file _ _ _ _ Hfile).
  set (q := with_defaults _ _).
  assert (Hq : schema q = None).
  { subst q. unfold with_defaults, after_options, option_string. cbn [schema].
    rewrite Hopt, Hcell, (declared_none _ _ Hitems). reflexivity. }
  destruct (fetch_search_path w false) as [| oid rest] eqn:Hpath.
  - rewrite (search_default_empty _ _ Hq Hpath). simpl. split.
    + split; [intros _; now left | reflexivity].
    + intros e He. now inversion He.
  - destruct (get_namespace_name w oid) as [n |] eqn:Hname.
    + rewrite (search_default_first _ _ _ _ _ Hq Hpath Hname). simpl. split.
      * split; [discriminate |].
        intros [H | [oid' [rest' [H Hnone]]]]; [discriminate |].
        inversion H. subst. congruence.
      * discriminate.
    + rewrite (search_default_dropped _ _ _ _ Hq Hpath Hname). simpl. split.
      * split; [| reflexivity]. intros _. right. now exists oid, rest.
      * intros e He. now inversion He.
Qed.

Lemma no_schema_selected_exactly_witness :
  snd (fill_in_extension_properties (server bare_items []) "hstore" [cascade] unset)
  = Error no_schema_error
  /\ snd (fill_in_extension_properties (server bare_items [7%N; 2200%N]) "hstore"
            [] unset)
     = Error no_schema_error.
Proof.
  split.
  - apply (proj1 (no_schema_selected_exactly (server bare_items []) "hstore"
                    [cascade] unset bare_items
                    (ex_intro _ "hstore" (conj eq_refl eq_refl))
                    ltac:(repeat constructor; discriminate)
                    eq_refl eq_refl eq_refl)).
    left. reflexivity.
  - apply (proj1 (no_schema_selected_exactly (server bare_items [7%N; 2200%N])
                    "hstore" [] unset bare_items
                    (ex_intro _ "hstore" (conj eq_refl eq_refl))
                    ltac:(repeat constructor; discriminate)
                    eq_refl eq_refl eq_refl)).
    right. exists 7%N, [2200%N]. split; reflexivity.
Defined.

(** ** C6 *)

(** C6: with a readable control file without schema entry, no schema from
    the options and none from the caller, and a search path whose first
    entry names a schema, the call returns and schema is the name of that
    first entry. *)
Theorem first_search_path_entry w extname options p items oid rest s :
  control_file_is w extname items ->
  Forall (fun item => name item <> "schema") items ->
  option_arg "schema" options = None ->
  schema p = None ->
  strings_only options = true ->
  fetch_search_path w false = oid :: rest ->
  get_namespace_name w oid = Some s ->
  snd (fill_in_extension_properties w extname options p) = Return tt
  /\ schema (fst (fill_in_extension_properties w extname options p)) = Some s.
Proof.
  intros Hfile Hitems Hopt Hcell Hs Hpath Hname.
  rewrite (fill_in_strings _ _ _ _ Hs), (defaulting_with_file _ _ _ _ Hfile).
  set (q := with_defaults _ _).
  assert (Hq : schema q = None).
  { subst q. unfold with_defaults, after_options, option_string. cbn [schema].
    rewrite Hopt, Hcell, (declared_none _ _ Hitems). reflexivity. }
  rewrite (search_default_first _ _ _ _ _ Hq Hpath Hname). split; reflexivity.
Qed.

Lemma first_search_path_entry_witness :
  snd (fill_in_extension_properties (server bare_items public_first) "hstore"
         [] unset)
  = Return tt
  /\ schema (fst (fill_in_extension_properties (server bare_items public_first)
                    "hstore" [] unset))
     = Some "public".
Proof.
  apply (first_search_path_entry (server bare_items public_first) "hstore" [] unset
           bare_items 2200%N [16384%N] "public").
  - exists "hstore". split; reflexivity.
  - repeat constructor; discriminate.
  - reflexivity.
  - reflexivity.
  - reflexivity.
  - reflexivity.
  - reflexivity.
Defined.

(** ** C7 *)

(** C7: [get_extension_current_version] on a name without row in
    pg_extension ends in the error "extension ... does not exist"
    (undefined object); on a name whose row, the only one of that name,
    stores version [v], it returns [v] unchanged. *)
Theorem current_version_lookup w extname :
  ((forall row, In row (pg_extension w) -> extname_of row <> extname) ->
   get_extension_current_version w extname
   = Error (mkError ERRCODE_UNDEFINED_OBJECT
              ("extension " ++ quoted extname ++ " does not exist")))
  /\ (forall v,
        NoDup (map extname_of (pg_extension w)) ->
        In (mkRow extname (Some v)) (pg_extension w) ->
        get_extension_current_version w extname = Return v).
Proof.
  unfold get_extension_current_version. split.
  - intros Hrows. rewrite (systable_getnext_none _ _ Hrows). reflexivity.
  - intros v Hnodup Hin. unfold systable_getnext.
    rewrite (find_unique_row _ extname _ Hnodup Hin eq_refl). reflexivity.
Qed.

Lemma current_version_lookup_witness :
  get_extension_current_version (server [] []) "pg_trgm"
  = Error (mkError ERRCODE_UNDEFINED_OBJECT
             ("extension " ++ quoted "pg_trgm" ++ " does not exist"))
  /\ get_extension_current_version (server [] []) "hstore" = Return "1.1".
Proof.
  split.
  - apply (proj1 (current_version_lookup (server [] []) "pg_trgm")).
    simpl. intros row [H | [H | []]]; subst row; discriminate.
  - apply (proj2 (current_version_lookup (server [] []) "hstore") "1.1").
    + simpl. repeat constructor; simpl; intuition discriminate.
    + simpl. left. reflexivity.
Defined.

(** ** C8 *)

(** C8: the outcome of a call is fixed by the extension name, the options,
    the cells passed in, the control file of the extension, the search path
    and the schemas behind its entries.  Two servers that agree on these
    give the same cells and the same ending, whatever else differs between
    them: the catalog pg_extension, other files, other schemas. *)
Theorem resolution_deterministic w1 w2 extname options p :
  same_inputs w1 w2 extname ->
  fill_in_extension_properties w1 extname options p
  = fill_in_extension_properties w2 extname options p.
Proof.
  intros Hsame. rewrite !fill_in_by_args. unfold resolve, bind.
  destruct (store_arg (option_arg "schema" options) _ p) as [p1 [[] | e |]];
    try reflexivity.
  destruct (store_arg (option_arg "old_version" options) _ p1) as [p2 [[] | e |]];
    try reflexivity.
  destruct (store_arg (option_arg "new_version" options) _ p2) as [p3 [[] | e |]];
    try reflexivity.
  now apply defaulting_same.
Qed.

Lemma resolution_deterministic_witness :
  fill_in_extension_properties
    (server [mkConfigVariable "default_version" "1.1"] public_first) "hstore"
    [cascade] unset
  = fill_in_extension_properties
      (replica [mkConfigVariable "default_version" "1.1"] public_first) "hstore"
      [cascade] unset.
Proof.
  apply (resolution_deterministic
           (server [mkConfigVariable "default_version" "1.1"] public_first)
           (replica [mkConfigVariable "default_version" "1.1"] public_first)
           "hstore" [cascade] unset).
  repeat split.
  - simpl. intros file H. inversion H. reflexivity.
  - simpl. intros oid [H | [H | []]]; subst oid; reflexivity.
Defined.

(** ** C9 *)

(** C9: entries whose name is not schema, old_version or new_version change
    nothing: the call on an option list gives the same cells and the same
    ending as the call on the list without those entries.  In particular
    they raise no error of their own. *)
Theorem unrecognized_options_ignored w extname options p :
  fill_in_extension_properties w extname options p
  = fill_in_extension_properties w extname
      (filter (fun d => recognized (defname d)) options) p.
Proof.
  assert (Hkey : forall key, recognized key = true ->
            option_arg key options
            = option_arg key (filter (fun d => recognized (defname d)) options)).
  { intros key Hkey. unfold option_arg. rewrite last_entry_filter; [reflexivity |].
    intros d Hd. now rewrite Hd. }
  rewrite (fill_in_same_args w extname options
             (filter (fun d => recognized (defname d)) options)
             (Hkey "schema" eq_refl) (Hkey "old_version" eq_refl)
             (Hkey "new_version" eq_refl)).
  reflexivity.
Qed.

(** ** C10 *)

(** C10: an entry [d] without argument sets nothing.  If [d] is the last
    entry of its name, then: the call goes as if the list had no entry of
    that name at all; the options leave the cell of that name as the
    caller passed it, and the call is the defaulting from the control file
    and the search path run on those cells; so that, on return with a
    readable control file, a schema cell so left holds what the caller
    passed or else the first schema entry of the control file or else the
    name behind the first entry of the search path, a new_version cell
    what the caller passed or else the first default_version entry, and an
    old_version cell what the caller passed.  If [d] is the only entry of
    its name, the list without that name is the list without [d]; and if a
    later entry has the same name, [d] can be removed as well. *)
Theorem null_argument_as_omitted w extname pre d post p :
  arg d = None ->
  (Forall (fun e => defname e <> defname d) post ->
   fill_in_extension_properties w extname (pre ++ d :: post) p
   = fill_in_extension_properties w extname
       (filter (fun e => negb (defname e =? defname d)) (pre ++ d :: post)) p)
  /\ (Forall (fun e => defname e <> defname d) post ->
      cell (defname d) (after_options (pre ++ d :: post) p) = cell (defname d) p
      /\ (strings_only (pre ++ d :: post) = true ->
          fill_in_extension_properties w extname (pre ++ d :: post) p
          = defaulting w extname (after_options (pre ++ d :: post) p)))
  /\ (Forall (fun e => defname e <> defname d) post ->
      forall p' items,
        fill_in_extension_properties w extname (pre ++ d :: post) p
        = (p', Return tt) ->
        control_file_is w extname items ->
        (defname d = "schema" ->
         schema p'
         = or_else (schema p)
             (or_else (declared "schema" items) (first_schema_name w)))
        /\ (defname d = "new_version" ->
            new_version p'
            = or_else (new_version p) (declared "default_version" items))
        /\ (defname d = "old_version" -> old_version p' = old_version p))
  /\ (Forall (fun e => defname e <> defname d) pre ->
      Forall (fun e => defname e <> defname d) post ->
      fill_in_extension_properties w extname (pre ++ d :: post) p
      = fill_in_extension_properties w extname (pre ++ post) p)
  /\ (Exists (fun e => defname e = defname d) post ->
      fill_in_extension_properties w extname (pre ++ d :: post) p
      = fill_in_extension_properties w extname (pre ++ post) p).
Proof.
  intros Hnull.
  assert (Hgov : Forall (fun e => defname e <> defname d) post ->
                 option_string (defname d) (pre ++ d :: post) = None).
  { intros Hpost. unfold option_string, option_arg.
    rewrite (last_entry_governing (defname d) d pre post eq_refl Hpost), Hnull.
    reflexivity. }
  split; [| split; [| split; [| split]]].
  - intros Hpost.
    rewrite (fill_in_same_args w extname (pre ++ d :: post)
               (filter (fun e => negb (defname e =? defname d)) (pre ++ d :: post)));
      try reflexivity; now apply option_arg_null_dropped.
  - intros Hpost. specialize (Hgov Hpost). split.
    + unfold cell, after_options. cbn [schema old_version new_version].
      destruct (defname d =? "schema") eqn:Es.
      * apply String.eqb_eq in Es. rewrite Es in Hgov. now rewrite Hgov.
      * destruct (defname d =? "old_version") eqn:Eo.
        -- apply String.eqb_eq in Eo. rewrite Eo in Hgov. now rewrite Hgov.
        -- destruct (defname d =? "new_version") eqn:En; [| reflexivity].
           apply String.eqb_eq in En. rewrite En in Hgov. now rewrite Hgov.
    + intros Hs. now apply fill_in_strings.
  - intros Hpost p' items Hrun Hfile. specialize (Hgov Hpost).
    destruct (returned_cells _ _ _ _ _ _ Hrun Hfile) as [Hsc [Hnv Hov]].
    repeat split.
    + intros Hname. rewrite Hname in Hgov. now rewrite Hsc, Hgov.
    + intros Hname. rewrite Hname in Hgov. now rewrite Hnv, Hgov.
    + intros Hname. rewrite Hname in Hgov. now rewrite Hov, Hgov.
  - intros Hpre Hpost.
    rewrite (fill_in_same_args w extname (pre ++ d :: post) (pre ++ post));
      try reflexivity; now apply option_arg_null_alone.
  - intros Hpost.
    rewrite (fill_in_same_args w extname (pre ++ d :: post) (pre ++ post));
      try reflexivity; now apply option_arg_shadowed.
Qed.

Lemma null_argument_as_omitted_witness :
  (fill_in_extension_properties
     (server [mkConfigVariable "schema" "pg_catalog"] public_first) "hstore"
     [str_opt "schema" "a"; cascade; mkDefElem "schema" None] unset
   = fill_in_extension_properties
       (server [mkConfigVariable "schema" "pg_catalog"] public_first) "hstore"
       [cascade] unset)
  /\ (cell "schema"
        (after_options [str_opt "schema" "a"; cascade; mkDefElem "schema" None]
           (mkProperties (Some "mine") None None))
      = Some "mine"
      /\ fill_in_extension_properties
           (server [mkConfigVariable "schema" "pg_catalog"] public_first) "hstore"
           [str_opt "schema" "a"; cascade; mkDefElem "schema" None]
           (mkProperties (Some "mine") None None)
         = defaulting
             (server [mkConfigVariable "schema" "pg_catalog"] public_first) "hstore"
             (mkProperties (Some "mine") None None))
  /\ (schema (mkProperties (Some "pg_catalog") None None)
      = or_else None
          (or_else (declared "schema" [mkConfigVariable "schema" "pg_catalog"])
             (first_schema_name
                (server [mkConfigVariable "schema" "pg_catalog"] public_first)))
      /\ new_version (mkProperties (Some "app") None (Some "1.1"))
         = or_else None
             (declared "default_version" [mkConfigVariable "default_version" "1.1"])
      /\ old_version (mkProperties (Some "public") None None) = None)
  /\ (fill_in_extension_properties
        (server [mkConfigVariable "default_version" "1.1"] public_first) "hstore"
        [cascade; mkDefElem "new_version" None; str_opt "schema" "a"] unset
      = fill_in_extension_properties
          (server [mkConfigVariable "default_version" "1.1"] public_first) "hstore"
          [cascade; str_opt "schema" "a"] unset)
  /\ (fill_in_extension_properties (server [] []) "hstore"
        [mkDefElem "schema" None; str_opt "schema" "a"] unset
      = fill_in_extension_properties (server [] []) "hstore"
          [str_opt "schema" "a"] unset).
Proof.
  split; [| split; [| split; [| split]]].
  - apply (proj1 (null_argument_as_omitted
                    (server [mkConfigVariable "schema" "pg_catalog"] public_first)
                    "hstore" [str_opt "schema" "a"; cascade]
                    (mkDefElem "schema" None) [] unset eq_refl)).
    constructor.
  - destruct (proj1 (proj2 (null_argument_as_omitted
                    (server [mkConfigVariable "schema" "pg_catalog"] public_first)
                    "hstore" [str_opt "schema" "a"; cascade]
                    (mkDefElem "schema" None) []
                    (mkProperties (Some "mine") None None) eq_refl))
               (Forall_nil _)) as [Hcell Hrun].
    split; [exact Hcell | exact (Hrun eq_refl)].
  - split; [| split].
    + apply (proj1 (proj1 (proj2 (proj2 (null_argument_as_omitted
                    (server [mkConfigVariable "schema" "pg_catalog"] public_first)
                    "hstore" [str_opt "schema" "a"; cascade]
                    (mkDefElem "schema" None) [] unset eq_refl)))
                 (Forall_nil _)
                 (mkProperties (Some "pg_catalog") None None)
                 [mkConfigVariable "schema" "pg_catalog"]
                 eq_refl (ex_intro _ "hstore" (conj eq_refl eq_refl)))).
      reflexivity.
    + apply (proj1 (proj2 (proj1 (proj2 (proj2 (null_argument_as_omitted
                    (server [mkConfigVariable "default_version" "1.1"] public_first)
                    "hstore" [str_opt "schema" "app"; str_opt "new_version" "9"]
                    (mkDefElem "new_version" None) [cascade] unset eq_refl)))
                 ltac:(repeat constructor; discriminate)
                 (mkProperties (Some "app") None (Some "1.1"))
                 [mkConfigVariable "default_version" "1.1"]
                 eq_refl (ex_intro _ "hstore" (conj eq_refl eq_refl))))).
      reflexivity.
    + apply (proj2 (proj2 (proj1 (proj2 (proj2 (null_argument_as_omitted
                    (server bare_items public_first)
                    "hstore" [str_opt "old_version" "0.9"]
                    (mkDefElem "old_version" None) [] unset eq_refl)))
                 (Forall_nil _)
                 (mkProperties (Some "public") None None)
                 bare_items
                 eq_refl (ex_intro _ "hstore" (conj eq_refl eq_refl))))).
      reflexivity.
  - apply (proj1 (proj2 (proj2 (proj2 (null_argument_as_omitted
                    (server [mkConfigVariable "default_version" "1.1"] public_first)
                    "hstore" [cascade] (mkDefElem "new_version" None)
                    [str_opt "schema" "a"] unset eq_refl)))));
      repeat constructor; discriminate.
  - apply (proj2 (proj2 (proj2 (proj2 (null_argument_as_omitted (server [] []) "hstore"
                    [] (mkDefElem "schema" None) [str_opt "schema" "a"] unset
                    eq_refl))))).
    left. reflexivity.
Defined.

(** * Further properties of utils.c *)

(** ** Shared facts *)

Lemma scan_item_other cells item :
  known_entry item = false -> scan_item cells item = cells.
Proof.
  unfold known_entry, scan_item. rewrite orb_false_iff. intros [Hv Hs].
  destruct cells as [version schema0]. rewrite Hv, Hs, !andb_false_r.
  reflexivity.
Qed.

Lemma scan_known_items items : forall cells,
  fold_left scan_item items cells
  = fold_left scan_item (filter known_entry items) cells.
Proof.
  induction items as [| item items IH]; intros cells; [reflexivity |].
  simpl. destruct (known_entry item) eqn:Hk.
  - simpl. apply IH.
  - rewrite (scan_item_other _ _ Hk). apply IH.
Qed.

Lemma resolve_same_defaulting w1 w2 extname a_schema a_old a_new p :
  (forall q, defaulting w1 extname q = defaulting w2 extname q) ->
  resolve w1 extname a_schema a_old a_new p
  = resolve w2 extname a_schema a_old a_new p.
Proof.
  intros Hsame. unfold resolve, bind.
  destruct (store_arg a_schema _ p) as [p1 [[] | e |]]; try reflexivity.
  destruct (store_arg a_old _ p1) as [p2 [[] | e |]]; try reflexivity.
  destruct (store_arg a_new _ p2) as [p3 [[] | e |]]; try reflexivity.
  apply Hsame.
Qed.

Lemma defaulting_keeps_old_version w extname p :
  old_version (fst (defaulting w extname p)) = old_version p.
Proof.
  rewrite defaulting_search. unfold bind.
  destruct (is_null (new_version p) || is_null (schema p)).
  - unfold on_new_version_and_schema, parse_default_version_in_control_file.
    destruct (AllocateFile w (control_filename w extname)) as [file |];
      [| reflexivity].
    destruct (ParseConfigFp w file (control_filename w extname)) as [e | items];
      [reflexivity |].
    simpl. destruct (fold_left scan_item items (new_version p, schema p)) as [v s].
    now rewrite (proj2 (search_default_keeps_versions w _)).
  - simpl. now rewrite (proj2 (search_default_keeps_versions w _)).
Qed.

(** ** The control file reader *)

(** X1: [parse_default_version_in_control_file] only fills cells that are
    NULL: a version or schema that is already set comes out as it went in,
    whatever the control file holds; and when the function leaves through
    an error both cells are as they were. *)
Theorem control_file_never_overwrites w extname version0 schema0 :
  (forall v, version0 = Some v ->
     fst (fst (parse_default_version_in_control_file w extname
                 (version0, schema0))) = Some v)
  /\ (forall s, schema0 = Some s ->
        snd (fst (parse_default_version_in_control_file w extname
                    (version0, schema0))) = Some s)
  /\ (snd (parse_default_version_in_control_file w extname (version0, schema0))
      <> Return tt ->
      fst (parse_default_version_in_control_file w extname (version0, schema0))
      = (version0, schema0)).
Proof.
  unfold parse_default_version_in_control_file.
  destruct (AllocateFile w (control_filename w extname)) as [file |].
  - destruct (ParseConfigFp w file (control_filename w extname)) as [e | items].
    + repeat split; intros; subst; reflexivity.
    + unfold modify. rewrite scan_items. simpl. repeat split.
      * intros v Hv. subst. reflexivity.
      * intros s Hs. subst. reflexivity.
      * intros H. now contradiction H.
  - repeat split; intros; subst; reflexivity.
Qed.

Lemma control_file_never_overwrites_witness :
  fst (fst (parse_default_version_in_control_file
              (server [mkConfigVariable "default_version" "1.1";
                       mkConfigVariable "schema" "pg_catalog"] [])
              "hstore" (Some "2.0", None))) = Some "2.0"
  /\ snd (fst (parse_default_version_in_control_file
                 (server [mkConfigVariable "default_version" "1.1";
                          mkConfigVariable "schema" "pg_catalog"] [])
                 "hstore" (None, Some "app"))) = Some "app"
  /\ fst (parse_default_version_in_control_file (server [] []) "nope"
            (None, Some "app")) = (None, Some "app").
Proof.
  split; [| split].
  - apply (proj1 (control_file_never_overwrites
                    (server [mkConfigVariable "default_version" "1.1";
                             mkConfigVariable "schema" "pg_catalog"] [])
                    "hstore" (Some "2.0") None) "2.0" eq_refl).
  - apply (proj1 (proj2 (control_file_never_overwrites
                    (server [mkConfigVariable "default_version" "1.1";
                             mkConfigVariable "schema" "pg_catalog"] [])
                    "hstore" None (Some "app"))) "app" eq_refl).
  - apply (proj2 (proj2 (control_file_never_overwrites (server [] []) "nope"
                    None (Some "app")))).
    discriminate.
Defined.

(** X2: entries of a control file named neither default_version nor schema
    play no part: the reader, and with it the whole resolution, gives the
    same cells and the same ending on the control file stripped of them. *)
Theorem other_entries_ignored w extname :
  (forall cells,
      parse_default_version_in_control_file w extname cells
      = parse_default_version_in_control_file (only_known_entries w) extname cells)
  /\ (forall options p,
        fill_in_extension_properties w extname options p
        = fill_in_extension_properties (only_known_entries w) extname options p).
Proof.
  assert (Hparse : forall cells,
    parse_default_version_in_control_file w extname cells
    = parse_default_version_in_control_file (only_known_entries w) extname cells).
  { intros cells. unfold parse_default_version_in_control_file.
    change (control_filename (only_known_entries w) extname)
      with (control_filename w extname).
    change (AllocateFile (only_known_entries w)) with (AllocateFile w).
    destruct (AllocateFile w (control_filename w extname)) as [file |];
      [| reflexivity].
    simpl.
    destruct (ParseConfigFp w file (control_filename w extname)) as [e | items];
      [reflexivity |].
    unfold modify. now rewrite scan_known_items. }
  split; [exact Hparse |].
  intros options p. rewrite !fill_in_by_args.
  apply resolve_same_defaulting. intros q.
  rewrite !defaulting_search. unfold bind.
  destruct (is_null (new_version q) || is_null (schema q)); [| reflexivity].
  unfold on_new_version_and_schema. rewrite <- Hparse. reflexivity.
Qed.

(** X3: an error thrown by the configuration parser on the control file
    comes out of [fill_in_extension_properties] unchanged, whenever the
    file is consulted, that is when the version or the schema is still
    unset once the options are stored; the cells hold what the options
    stored. *)
Theorem parser_error_propagates w extname options p file e :
  AllocateFile w (control_filename w extname) = Some file ->
  ParseConfigFp w file (control_filename w extname) = inl e ->
  strings_only options = true ->
  is_null (new_version (after_options options p))
  || is_null (schema (after_options options p)) = true ->
  fill_in_extension_properties w extname options p
  = (after_options options p, Error e).
Proof.
  intros Hopen Hparse Hs Hneed. rewrite (fill_in_strings _ _ _ _ Hs).
  set (q := after_options options p) in *.
  rewrite defaulting_search. unfold bind. rewrite Hneed.
  unfold on_new_version_and_schema, parse_default_version_in_control_file.
  rewrite Hopen, Hparse. destruct q. reflexivity.
Qed.

Lemma parser_error_propagates_witness :
  fill_in_extension_properties
    (with_parser (server [] public_first)
       (fun _ _ => inl (mkError ERRCODE_CONFIG_FILE_ERROR "syntax error")))
    "hstore" [str_opt "schema" "app"; cascade] unset
  = (mkProperties (Some "app") None None,
     Error (mkError ERRCODE_CONFIG_FILE_ERROR "syntax error")).
Proof.
  apply (parser_error_propagates
           (with_parser (server [] public_first)
              (fun _ _ => inl (mkError ERRCODE_CONFIG_FILE_ERROR "syntax error")))
           "hstore" [str_opt "schema" "app"; cascade] unset "hstore"
           (mkError ERRCODE_CONFIG_FILE_ERROR "syntax error"));
    reflexivity.
Defined.

(** ** The old version *)

(** X4: [fill_in_extension_properties] never looks the old version up: on
    every server and however the call ends, old_version is the argument of
    the governing old_version option if it has one, and otherwise what the
    caller passed in, NULL included. *)
Theorem old_version_only_from_options w extname options p :
  strings_only options = true ->
  old_version (fst (fill_in_extension_properties w extname options p))
  = or_else (option_string "old_version" options) (old_version p).
Proof.
  intros Hs. rewrite (fill_in_strings _ _ _ _ Hs).
  rewrite defaulting_keeps_old_version. reflexivity.
Qed.

Lemma old_version_only_from_options_witness :
  old_version
    (fst (fill_in_extension_properties
            (server [mkConfigVariable "default_version" "1.1"] public_first)
            "hstore" [str_opt "new_version" "1.2"] unset))
  = None.
Proof.
  apply (old_version_only_from_options
           (server [mkConfigVariable "default_version" "1.1"] public_first)
           "hstore" [str_opt "new_version" "1.2"] unset eq_refl).
Defined.

(** ** The catalog lookup *)

(** X5: a row of pg_extension whose version column is NULL makes
    [get_extension_current_version] end in the internal error
    "extversion is null"; it is not reported as a missing extension. *)
Theorem null_extversion_is_internal_error w extname :
  NoDup (map extname_of (pg_extension w)) ->
  In (mkRow extname None) (pg_extension w) ->
  get_extension_current_version w extname
  = Error (mkError ERRCODE_INTERNAL_ERROR "extversion is null").
Proof.
  intros Hnodup Hin. unfold get_extension_current_version, systable_getnext.
  rewrite (find_unique_row _ extname _ Hnodup Hin eq_refl). reflexivity.
Qed.

Lemma null_extversion_is_internal_error_witness :
  get_extension_current_version (server [] []) "broken"
  = Error (mkError ERRCODE_INTERNAL_ERROR "extversion is null").
Proof.
  apply (null_extversion_is_internal_error (server [] []) "broken").
  - simpl. repeat constructor; simpl; intuition discriminate.
  - simpl. right. left. reflexivity.
Defined.

(** X6: what [get_extension_current_version] returns is in the catalog: a
    returned version [v] is the version of a row of that name; the error
    for a missing extension is raised only when no row has that name; and
    no error other than that one and "extversion is null" comes out. *)
Theorem current_version_sound w extname :
  (forall v,
      get_extension_current_version w extname = Return v ->
      In (mkRow extname (Some v)) (pg_extension w))
  /\ (get_extension_current_version w extname
      = Error (mkError ERRCODE_UNDEFINED_OBJECT
                 ("extension " ++ quoted extname ++ " does not exist")) ->
      forall row, In row (pg_extension w) -> extname_of row <> extname)
  /\ (forall e,
        get_extension_current_version w extname = Error e ->
        e = mkError ERRCODE_UNDEFINED_OBJECT
              ("extension " ++ quoted extname ++ " does not exist")
        \/ e = mkError ERRCODE_INTERNAL_ERROR "extversion is null").
Proof.
  unfold get_extension_current_version, systable_getnext.
  destruct (find (fun row => extname_of row =? extname) (pg_extension w))
    as [[n version] |] eqn:Hfind.
  - apply find_some in Hfind. destruct Hfind as [Hin Hname].
    simpl in Hname. apply String.eqb_eq in Hname. subst n. simpl.
    destruct version as [v |]; repeat split.
    + intros v' H. inversion H. subst. exact Hin.
    + discriminate.
    + discriminate.
    + discriminate.
    + discriminate.
    + intros e H. inversion H. now right.
  - repeat split.
    + discriminate.
    + intros _ row Hin. apply (find_none _ _ Hfind) in Hin.
      now apply String.eqb_neq.
    + intros e H. inversion H. now left.
Qed.

Lemma current_version_sound_witness :
  In (mkRow "hstore" (Some "1.1")) (pg_extension (server [] []))
  /\ (forall row, In row (pg_extension (server [] [])) ->
        extname_of row <> "pg_trgm")
  /\ (mkError ERRCODE_INTERNAL_ERROR "extversion is null"
       = mkError ERRCODE_UNDEFINED_OBJECT
           ("extension " ++ quoted "broken" ++ " does not exist")
      \/ mkError ERRCODE_INTERNAL_ERROR "extversion is null"
         = mkError ERRCODE_INTERNAL_ERROR "extversion is null").
Proof.
  split; [| split].
  - apply (proj1 (current_version_sound (server [] []) "hstore") "1.1").
    reflexivity.
  - apply (proj1 (proj2 (current_version_sound (server [] []) "pg_trgm"))).
    reflexivity.
  - apply (proj2 (proj2 (current_version_sound (server [] []) "broken"))
             (mkError ERRCODE_INTERNAL_ERROR "extversion is null")).
    reflexivity.
Defined.

(** X7: rows of other extensions do not matter to the lookup of one:
    adding or removing a row of another name, anywhere in the catalog,
    leaves the result of [get_extension_current_version] as it is. *)
Theorem other_rows_ignored w extname pre row post :
  extname_of row <> extname ->
  get_extension_current_version (with_catalog w (pre ++ row :: post)) extname
  = get_extension_current_version (with_catalog w (pre ++ post)) extname.
Proof.
  intros Hrow. unfold get_extension_current_version, systable_getnext. simpl.
  replace (find (fun r => extname_of r =? extname) (pre ++ row :: post))
    with (find (fun r => extname_of r =? extname) (pre ++ post));
    [reflexivity |].
  induction pre as [| r pre IH]; simpl.
  - apply String.eqb_neq in Hrow. now rewrite Hrow.
  - destruct (extname_of r =? extname); [reflexivity | exact IH].
Qed.

Lemma other_rows_ignored_witness :
  get_extension_current_version
    (with_catalog (server [] [])
       [mkRow "pg_trgm" (Some "1.3"); mkRow "ltree" None;
        mkRow "hstore" (Some "1.1")]) "hstore"
  = get_extension_current_version
      (with_catalog (server [] [])
         [mkRow "pg_trgm" (Some "1.3"); mkRow "hstore" (Some "1.1")]) "hstore".
Proof.
  apply (other_rows_ignored (server [] []) "hstore"
           [mkRow "pg_trgm" (Some "1.3")] (mkRow "ltree" None)
           [mkRow "hstore" (Some "1.1")]).
  discriminate.
Defined.

(** ** The name of the control file *)

Lemma length_append (s1 s2 : string) :
  String.length (s1 ++ s2) = String.length s1 + String.length s2.
Proof.
  induction s1 as [| c s1 IH]; simpl; [reflexivity | now rewrite IH].
Qed.

Lemma substring_length_le n : forall s, String.length (substring 0 n s) <= n.
Proof.
  induction n as [| n IH]; intros [| c s]; simpl; try lia.
  specialize (IH s). lia.
Qed.

Lemma substring_all n : forall s, String.length s <= n -> substring 0 n s = s.
Proof.
  induction n as [| n IH]; intros [| c s]; simpl; intros H;
    try reflexivity; try lia.
  rewrite IH; [reflexivity | lia].
Qed.

Lemma substring_prefix n : forall s, prefix (substring 0 n s) s = true.
Proof.
  induction n as [| n IH]; intros [| c s]; simpl; try reflexivity.
  destruct (ascii_dec c c) as [_ | Hc]; [apply IH | now contradiction Hc].
Qed.

(** X8: the name of the control file fits the buffer of [MAXPGPATH] bytes:
    it has fewer than [MAXPGPATH] characters and is a prefix of
    sharepath/extension/extname.control; it is that whole path whenever
    the path itself has fewer than [MAXPGPATH] characters, and otherwise
    the path is cut, its end with the .control suffix included. *)
Theorem control_filename_fits w extname :
  String.length (control_filename w extname) < MAXPGPATH
  /\ prefix (control_filename w extname)
       (sharepath w ++ "/extension/" ++ extname ++ ".control") = true
  /\ (String.length (sharepath w) + String.length extname + 19 < MAXPGPATH ->
      control_filename w extname
      = sharepath w ++ "/extension/" ++ extname ++ ".control")
  /\ (MAXPGPATH <= String.length (sharepath w) + String.length extname + 19 ->
      control_filename w extname
      <> sharepath w ++ "/extension/" ++ extname ++ ".control").
Proof.
  unfold control_filename, snprintf_MAXPGPATH.
  assert (Hlen : String.length
                   (sharepath w ++ "/extension/" ++ extname ++ ".control")
                 = String.length (sharepath w) + String.length extname + 19).
  { rewrite !length_append.
    change (String.length "/extension/") with 11.
    change (String.length ".control") with 8. lia. }
  assert (Hmax : MAXPGPATH - 1 < MAXPGPATH) by (unfold MAXPGPATH; lia).
  pose proof (substring_length_le (MAXPGPATH - 1)
                (sharepath w ++ "/extension/" ++ extname ++ ".control")) as Hle.
  repeat split.
  - lia.
  - apply substring_prefix.
  - intros H. apply substring_all. lia.
  - intros H Heq. rewrite Heq in Hle. lia.
Qed.

Lemma control_filename_fits_witness :
  control_filename (server [] []) "hstore"
  = "/usr/share/postgresql/extension/hstore.control"
  /\ control_filename deep_server "hstore"
     <> sharepath deep_server ++ "/extension/" ++ "hstore" ++ ".control".
Proof.
  split.
  - apply (proj1 (proj2 (proj2 (control_filename_fits (server [] []) "hstore")))).
    apply Nat.ltb_lt. reflexivity.
  - apply (proj2 (proj2 (proj2 (control_filename_fits deep_server "hstore")))).
    apply Nat.leb_le. reflexivity.
Defined.

(** ** Calling again *)

Lemma after_options_absorbed options p p' :
  (forall x, schema (after_options options p) = Some x -> schema p' = Some x) ->
  (forall x, old_version (after_options options p) = Some x ->
     old_version p' = Some x) ->
  (forall x, new_version (after_options options p) = Some x ->
     new_version p' = Some x) ->
  after_options options p' = p'.
Proof.
  unfold after_options. destruct p' as [s' o' n']. simpl.
  intros Hs Ho Hn.
  destruct (option_string "schema" options) as [a |];
    destruct (option_string "old_version" options) as [b |];
    destruct (option_string "new_version" options) as [c |]; simpl in *;
    rewrite ?(Hs _ eq_refl), ?(Ho _ eq_refl), ?(Hn _ eq_refl); reflexivity.
Qed.

Lemma defaulting_stable w extname p :
  schema p <> None ->
  (new_version p = None ->
   exists items,
     control_file_is w extname items /\ declared "default_version" items = None) ->
  defaulting w extname p = (p, Return tt).
Proof.
  intros Hschema Hversion.
  destruct p as [[s |] o [n |]]; simpl in *; try (now contradiction Hschema).
  - rewrite defaulting_search. unfold bind. simpl.
    apply (search_default_set w (mkProperties (Some s) o (Some n)) s eq_refl).
  - destruct (Hversion eq_refl) as [items [Hfile Hnone]].
    rewrite (defaulting_with_file _ _ _ _ Hfile). unfold with_defaults. simpl.
    rewrite Hnone. apply (search_default_set w (mkProperties (Some s) o None) s eq_refl).
Qed.

(** X9: a call that returned can be repeated on the cells it left: with the
    same options, or with no options at all, the second call returns as
    well and leaves every cell as it is. *)
Theorem rerun_is_stable w extname options p p' :
  fill_in_extension_properties w extname options p = (p', Return tt) ->
  fill_in_extension_properties w extname options p' = (p', Return tt)
  /\ fill_in_extension_properties w extname [] p' = (p', Return tt).
Proof.
  intros Hrun. apply fill_in_returns in Hrun. destruct Hrun as [Hs Hrun].
  assert (Hfacts :
    (forall x, schema (after_options options p) = Some x -> schema p' = Some x)
    /\ (forall x, old_version (after_options options p) = Some x ->
          old_version p' = Some x)
    /\ (forall x, new_version (after_options options p) = Some x ->
          new_version p' = Some x)
    /\ schema p' <> None
    /\ (new_version p' = None ->
        exists items,
          control_file_is w extname items
          /\ declared "default_version" items = None)).
  { destruct Hrun as [[Hneed Hp'] | [Hneed [items [Hfile Hsearch]]]].
    - subst p'. repeat split; try (intros x H; exact H).
      + destruct (schema (after_options options p)); [discriminate |].
        rewrite orb_true_r in Hneed. discriminate.
      + intros Hnone. rewrite Hnone in Hneed. discriminate.
    - apply search_default_returns in Hsearch.
      destruct Hsearch as [Hschema [Hold [Hnew Hsame]]].
      repeat split.
      + intros x Hx. rewrite Hsame; unfold with_defaults; cbn [schema];
          rewrite Hx; [reflexivity | discriminate].
      + intros x Hx. rewrite Hold. exact Hx.
      + intros x Hx. rewrite Hnew. unfold with_defaults. cbn [new_version].
        rewrite Hx. reflexivity.
      + exact Hschema.
      + intros Hnone. exists items. split; [exact Hfile |].
        rewrite Hnew in Hnone. unfold with_defaults in Hnone.
        cbn [new_version] in Hnone.
        destruct (new_version (after_options options p)); [discriminate |].
        exact Hnone. }
  destruct Hfacts as [Hs1 [Ho1 [Hn1 [Hschema Hversion]]]].
  split.
  - rewrite (fill_in_strings _ _ _ _ Hs).
    rewrite (after_options_absorbed _ _ _ Hs1 Ho1 Hn1).
    now apply defaulting_stable.
  - rewrite (fill_in_strings w extname [] p' eq_refl).
    replace (after_options [] p') with p' by (destruct p'; reflexivity).
    now apply defaulting_stable.
Qed.

Lemma rerun_is_stable_witness :
  fill_in_extension_properties (server bare_items public_first) "hstore"
    [str_opt "old_version" "1.0"; cascade]
    (mkProperties (Some "public") (Some "1.0") None)
  = (mkProperties (Some "public") (Some "1.0") None, Return tt)
  /\ fill_in_extension_properties (server bare_items public_first) "hstore" []
       (mkProperties (Some "public") (Some "1.0") None)
     = (mkProperties (Some "public") (Some "1.0") None, Return tt).
Proof.
  apply (rerun_is_stable (server bare_items public_first) "hstore"
           [str_opt "old_version" "1.0"; cascade] unset).
  reflexivity.
Defined.

(** ** The order of the options *)

Lemma NoDup_map_inj {A B} (f : A -> B) (l : list A) a b :
  NoDup (map f l) -> In a l -> In b l -> f a = f b -> a = b.
Proof.
  induction l as [| x l IH]; simpl; intros Hnodup Ha Hb Hf; [contradiction |].
  inversion Hnodup as [| ? ? Hfresh Hrest]; subst.
  destruct Ha as [Ha | Ha], Hb as [Hb | Hb].
  - congruence.
  - subst x. exfalso. apply Hfresh. rewrite Hf. now apply in_map.
  - subst x. exfalso. apply Hfresh. rewrite <- Hf. now apply in_map.
  - now apply IH.
Qed.

Lemma Permutation_filter {A} (f : A -> bool) (l1 l2 : list A) :
  Permutation l1 l2 -> Permutation (filter f l1) (filter f l2).
Proof.
  induction 1 as [| x l1 l2 _ IH | x y l | l1 l2 l3 _ IH1 _ IH2]; simpl.
  - constructor.
  - destruct (f x); [now constructor | exact IH].
  - destruct (f x), (f y); try apply Permutation_refl. constructor.
  - now apply Permutation_trans with (filter f l2).
Qed.

Lemma last_entry_unique key options d :
  NoDup (map defname options) -> In d options -> defname d = key ->
  last_entry key options = Some d.
Proof.
  intros Hnodup Hin Hkey. unfold last_entry.
  destruct (find (fun e => defname e =? key) (rev options)) as [e |] eqn:Hfind.
  - apply find_some in Hfind. destruct Hfind as [Hin' Heq].
    apply in_rev in Hin'. apply String.eqb_eq in Heq.
    f_equal. apply (NoDup_map_inj defname options e d Hnodup Hin' Hin).
    congruence.
  - apply in_rev in Hin. apply (find_none _ _ Hfind) in Hin.
    apply String.eqb_neq in Hin. contradiction.
Qed.

Lemma option_arg_permutation key options1 options2 :
  Permutation options1 options2 -> NoDup (map defname options1) ->
  option_arg key options1 = option_arg key options2.
Proof.
  intros Hperm Hnodup. unfold option_arg.
  assert (Hnodup2 : NoDup (map defname options2)).
  { apply (Permutation_NoDup (Permutation_map defname Hperm) Hnodup). }
  destruct (last_entry key options1) as [d |] eqn:H1.
  - unfold last_entry in H1. apply find_some in H1. destruct H1 as [Hin Heq].
    apply in_rev in Hin. apply String.eqb_eq in Heq.
    apply (Permutation_in _ Hperm) in Hin.
    now rewrite (last_entry_unique key options2 d Hnodup2 Hin Heq).
  - destruct (last_entry key options2) as [d |] eqn:H2; [| reflexivity].
    exfalso. unfold last_entry in H1, H2.
    apply find_some in H2. destruct H2 as [Hin Heq].
    apply in_rev in Hin. apply (Permutation_in _ (Permutation_sym Hperm)) in Hin.
    apply in_rev in Hin. apply (find_none _ _ H1) in Hin.
    rewrite Hin in Heq. discriminate.
Qed.

Lemma option_arg_recognized key options :
  recognized key = true ->
  option_arg key options
  = option_arg key (filter (fun d => recognized (defname d)) options).
Proof.
  intros Hkey. unfold option_arg. rewrite last_entry_filter; [reflexivity |].
  intros d Hd. now rewrite Hd.
Qed.

(** X10: as long as none of schema, old_version and new_version is given
    twice, the order in which the options are written does not matter: any
    rearrangement of the list gives the same cells and the same ending. *)
Theorem option_order_irrelevant w extname options1 options2 p :
  Permutation options1 options2 ->
  NoDup (map defname (filter (fun d => recognized (defname d)) options1)) ->
  fill_in_extension_properties w extname options1 p
  = fill_in_extension_properties w extname options2 p.
Proof.
  intros Hperm Hnodup.
  pose proof (Permutation_filter (fun d => recognized (defname d)) _ _ Hperm)
    as Hperm'.
  rewrite (fill_in_same_args w extname options1 options2); [reflexivity | | |].
  - rewrite (option_arg_recognized "schema" options1 eq_refl),
      (option_arg_recognized "schema" options2 eq_refl).
    now apply option_arg_permutation.
  - rewrite (option_arg_recognized "old_version" options1 eq_refl),
      (option_arg_recognized "old_version" options2 eq_refl).
    now apply option_arg_permutation.
  - rewrite (option_arg_recognized "new_version" options1 eq_refl),
      (option_arg_recognized "new_version" options2 eq_refl).
    now apply option_arg_permutation.
Qed.

Lemma option_order_irrelevant_witness :
  fill_in_extension_properties (server bare_items public_first) "hstore"
    [str_opt "schema" "app"; cascade; str_opt "new_version" "1.2"; cascade] unset
  = fill_in_extension_properties (server bare_items public_first) "hstore"
      [cascade; str_opt "new_version" "1.2"; cascade; str_opt "schema" "app"] unset.
Proof.
  apply (option_order_irrelevant (server bare_items public_first) "hstore"
           [str_opt "schema" "app"; cascade; str_opt "new_version" "1.2"; cascade]
           [cascade; str_opt "new_version" "1.2"; cascade; str_opt "schema" "app"]
           unset).
  - change [str_opt "schema" "app"; cascade; str_opt "new_version" "1.2"; cascade]
      with ([str_opt "schema" "app"]
            ++ [cascade; str_opt "new_version" "1.2"; cascade])%list.
    change [cascade; str_opt "new_version" "1.2"; cascade; str_opt "schema" "app"]
      with ([cascade; str_opt "new_version" "1.2"; cascade]
            ++ [str_opt "schema" "app"])%list.
    apply Permutation_app_comm.
  - simpl. repeat constructor; simpl; intuition discriminate.
Defined.

(** X11: when an option name is given more than once the last entry of
    that name governs: an entry, with or without argument, that is followed
    by a later entry of the same name can be removed without any change. *)
Theorem later_entry_governs w extname pre d post p :
  Exists (fun e => defname e = defname d) post ->
  fill_in_extension_properties w extname (pre ++ d :: post) p
  = fill_in_extension_properties w extname (pre ++ post) p.
Proof.
  intros Hpost.
  rewrite (fill_in_same_args w extname (pre ++ d :: post) (pre ++ post));
    try reflexivity; now apply option_arg_shadowed.
Qed.

Lemma later_entry_governs_witness :
  fill_in_extension_properties (server bare_items public_first) "hstore"
    [str_opt "schema" "a"; cascade; str_opt "schema" "b"] unset
  = fill_in_extension_properties (server bare_items public_first) "hstore"
      [cascade; str_opt "schema" "b"] unset.
Proof.
  apply (later_entry_governs (server bare_items public_first) "hstore"
           [] (str_opt "schema" "a") [cascade; str_opt "schema" "b"] unset).
  right. left. reflexivity.
Defined.

(** ** Success, failure and the order of precedence *)

Lemma search_default_errors w p e :
  snd (search_default w p) = Error e -> e = no_schema_error.
Proof.
  destruct (schema p) as [s |] eqn:Hs.
  - rewrite (search_default_set _ _ _ Hs). discriminate.
  - destruct (fetch_search_path w false) as [| oid rest] eqn:Hpath.
    + rewrite (search_default_empty _ _ Hs Hpath). simpl. congruence.
    + destruct (get_namespace_name w oid) as [n |] eqn:Hname.
      * rewrite (search_default_first _ _ _ _ _ Hs Hpath Hname). discriminate.
      * rewrite (search_default_dropped _ _ _ _ Hs Hpath Hname). simpl.
        congruence.
Qed.

(** X12: with a readable control file the call returns exactly when a
    schema can be found somewhere: in the options or the caller's cell, in
    a schema entry of the control file, or behind the first entry of the
    search path.  A missing version never makes it fail. *)
Theorem returns_iff_schema_found w extname options p items :
  strings_only options = true ->
  control_file_is w extname items ->
  (snd (fill_in_extension_properties w extname options p) = Return tt
   <-> schema (after_options options p) <> None
       \/ declared "schema" items <> None
       \/ first_schema_name w <> None).
Proof.
  intros Hs Hfile.
  rewrite (fill_in_strings _ _ _ _ Hs), (defaulting_with_file _ _ _ _ Hfile).
  set (q := after_options options p).
  destruct (schema (with_defaults items q)) as [s |] eqn:Hwd.
  - rewrite (search_default_set _ _ _ Hwd). split; [| reflexivity].
    intros _. unfold with_defaults in Hwd. cbn [schema] in Hwd.
    destruct (schema q); [left; discriminate |].
    right. left. simpl in Hwd. rewrite Hwd. discriminate.
  - rewrite (search_default_unset _ _ Hwd).
    unfold with_defaults in Hwd. cbn [schema] in Hwd.
    destruct (schema q); [discriminate |]. simpl in Hwd. rewrite Hwd.
    destruct (first_schema_name w) as [n |]; simpl.
    + split; [| reflexivity]. intros _. right. right. discriminate.
    + split; [discriminate |].
      intros [H | [H | H]]; now contradiction H.
Qed.

Lemma returns_iff_schema_found_witness :
  snd (fill_in_extension_properties
         (server [mkConfigVariable "schema" "pg_catalog"] []) "hstore"
         [cascade] unset)
  = Return tt.
Proof.
  apply (proj2 (returns_iff_schema_found
                  (server [mkConfigVariable "schema" "pg_catalog"] []) "hstore"
                  [cascade] unset [mkConfigVariable "schema" "pg_catalog"]
                  eq_refl (ex_intro _ "hstore" (conj eq_refl eq_refl)))).
  right. left. discriminate.
Defined.

(** X13: the search path is looked at only as a last resort.  When the
    schema comes from the options, from the caller or from the control
    file, the call gives the same cells and the same ending whatever the
    search path and the schemas of the server are. *)
Theorem search_path_not_consulted w extname options p path names :
  strings_only options = true ->
  schema (after_options options p) <> None
  \/ (exists items,
        control_file_is w extname items /\ declared "schema" items <> None) ->
  fill_in_extension_properties (with_namespaces w path names) extname options p
  = fill_in_extension_properties w extname options p.
Proof.
  intros Hs Hschema. rewrite !(fill_in_strings _ _ _ _ Hs).
  set (q := after_options options p) in *.
  destruct (AllocateFile w (control_filename w extname)) as [file |] eqn:Hopen.
  - destruct (ParseConfigFp w file (control_filename w extname))
      as [e | items] eqn:Hparse.
    + destruct Hschema as [Hq | [items [[file' [Hopen' Hparse']] _]]];
        [| congruence].
      rewrite !defaulting_search. unfold bind.
      destruct (is_null (new_version q) || is_null (schema q)) eqn:Hneed.
      * unfold on_new_version_and_schema, parse_default_version_in_control_file.
        change (control_filename (with_namespaces w path names) extname)
          with (control_filename w extname).
        change (AllocateFile (with_namespaces w path names))
          with (AllocateFile w).
        change (ParseConfigFp (with_namespaces w path names))
          with (ParseConfigFp w).
        rewrite Hopen, Hparse. reflexivity.
      * simpl. destruct (schema q) as [s |] eqn:Hsq; [| now contradiction Hq].
        now rewrite !(search_default_set _ _ _ Hsq).
    + assert (Hfile : control_file_is w extname items) by (exists file; auto).
      assert (Hfile' : control_file_is (with_namespaces w path names) extname items)
        by (exists file; auto).
      rewrite (defaulting_with_file _ _ _ _ Hfile),
        (defaulting_with_file _ _ _ _ Hfile').
      assert (Hwd : exists s, schema (with_defaults items q) = Some s).
      { unfold with_defaults. cbn [schema].
        destruct (schema q) as [s |]; [now exists s |]. simpl.
        destruct Hschema as [Hq | [items' [Hfile'' Hdecl]]];
          [now contradiction Hq |].
        rewrite (control_file_unique _ _ _ _ Hfile Hfile'').
        destruct (declared "schema" items') as [s |];
          [now exists s | now contradiction Hdecl]. }
      destruct Hwd as [s Hwd]. now rewrite !(search_default_set _ _ _ Hwd).
  - destruct Hschema as [Hq | [items [[file' [Hopen' _]] _]]]; [| congruence].
    assert (Hopen2 : AllocateFile (with_namespaces w path names)
                       (control_filename (with_namespaces w path names) extname)
                     = None) by exact Hopen.
    rewrite (defaulting_without_file _ _ _ Hopen),
      (defaulting_without_file _ _ _ Hopen2).
    reflexivity.
Qed.

Lemma search_path_not_consulted_witness :
  fill_in_extension_properties
    (with_namespaces (server [mkConfigVariable "default_version" "1.1"] public_first)
       (fun _ => []) (fun _ => None))
    "hstore" [str_opt "schema" "app"] unset
  = fill_in_extension_properties
      (server [mkConfigVariable "default_version" "1.1"] public_first)
      "hstore" [str_opt "schema" "app"] unset.
Proof.
  apply (search_path_not_consulted
           (server [mkConfigVariable "default_version" "1.1"] public_first)
           "hstore" [str_opt "schema" "app"] unset (fun _ => []) (fun _ => None)
           eq_refl).
  left. discriminate.
Defined.

(** X14: the order of precedence on return, with a readable control file.
    The schema is the first that exists of: the option, the caller's cell,
    the first schema entry of the control file, the name behind the first
    entry of the search path.  The new version is the first that exists of:
    the option, the caller's cell, the first default_version entry; it is
    NULL when none exists.  The old version is the option or else the
    caller's cell. *)
Theorem precedence_on_return w extname options p p' items :
  fill_in_extension_properties w extname options p = (p', Return tt) ->
  control_file_is w extname items ->
  schema p'
  = or_else (option_string "schema" options)
      (or_else (schema p)
         (or_else (declared "schema" items) (first_schema_name w)))
  /\ new_version p'
     = or_else (option_string "new_version" options)
         (or_else (new_version p) (declared "default_version" items))
  /\ old_version p'
     = or_else (option_string "old_version" options) (old_version p).
Proof.
  intros Hrun Hfile.
  assert (Hs : strings_only options = true).
  { apply (fill_in_defined_iff w extname options p). rewrite Hrun. discriminate. }
  rewrite (fill_in_strings _ _ _ _ Hs), (defaulting_with_file _ _ _ _ Hfile)
    in Hrun.
  revert Hrun. unfold after_options, with_defaults. cbn [schema old_version new_version].
  set (a := option_string "schema" options).
  set (b := option_string "old_version" options).
  set (c := option_string "new_version" options).
  intros Hrun.
  destruct (or_else (or_else a (schema p)) (declared "schema" items))
    as [s |] eqn:Hwd.
  - rewrite search_default_set with (s := s) in Hrun by reflexivity.
    inversion Hrun. subst p'. cbn [schema old_version new_version].
    repeat split.
    + destruct a, (schema p), (declared "schema" items);
        simpl in *; congruence.
    + destruct c, (new_version p); reflexivity.
  - rewrite search_default_unset in Hrun by reflexivity.
    destruct (first_schema_name w) as [n |]; [| discriminate].
    inversion Hrun. subst p'. cbn [schema old_version new_version set_schema].
    repeat split.
    + destruct a, (schema p), (declared "schema" items);
        simpl in *; congruence.
    + destruct c, (new_version p); reflexivity.
Qed.

Lemma precedence_on_return_witness :
  schema (mkProperties (Some "public") (Some "1.0") (Some "1.2"))
  = or_else (option_string "schema" [str_opt "new_version" "1.2"])
      (or_else None (or_else (declared "schema" bare_items)
                       (first_schema_name (server bare_items public_first))))
  /\ new_version (mkProperties (Some "public") (Some "1.0") (Some "1.2"))
     = or_else (option_string "new_version" [str_opt "new_version" "1.2"])
         (or_else None (declared "default_version" bare_items))
  /\ old_version (mkProperties (Some "public") (Some "1.0") (Some "1.2"))
     = or_else (option_string "old_version" [str_opt "new_version" "1.2"])
         (Some "1.0").
Proof.
  apply (precedence_on_return (server bare_items public_first) "hstore"
           [str_opt "new_version" "1.2"] (mkProperties None (Some "1.0") None)
           (mkProperties (Some "public") (Some "1.0") (Some "1.2")) bare_items).
  - reflexivity.
  - exists "hstore". split; reflexivity.
Defined.

(** X15: [fill_in_extension_properties] can end in three errors and no
    other: the control file could not be opened; the configuration parser
    threw on the control file (its own error, passed on); or no schema has
    been selected.  The first two occur only when the file was needed. *)
Theorem only_three_errors w extname options p e :
  snd (fill_in_extension_properties w extname options p) = Error e ->
  (AllocateFile w (control_filename w extname) = None
   /\ e = could_not_open (control_filename w extname))
  \/ (exists file,
        AllocateFile w (control_filename w extname) = Some file
        /\ ParseConfigFp w file (control_filename w extname) = inl e)
  \/ e = no_schema_error.
Proof.
  intros Hrun.
  assert (Hs : strings_only options = true).
  { apply (fill_in_defined_iff w extname options p). rewrite Hrun. discriminate. }
  rewrite (fill_in_strings _ _ _ _ Hs) in Hrun.
  set (q := after_options options p) in *.
  destruct (AllocateFile w (control_filename w extname)) as [file |] eqn:Hopen.
  - destruct (ParseConfigFp w file (control_filename w extname))
      as [e0 | items] eqn:Hparse.
    + revert Hrun. rewrite defaulting_search. unfold bind.
      destruct (is_null (new_version q) || is_null (schema q)) eqn:Hneed.
      * unfold on_new_version_and_schema, parse_default_version_in_control_file.
        rewrite Hopen, Hparse. simpl. intros H. inversion H. subst e0.
        right. left. now exists file.
      * simpl. intros H. right. right. now apply (search_default_errors w q).
    + assert (Hfile : control_file_is w extname items) by (exists file; auto).
      rewrite (defaulting_with_file _ _ _ _ Hfile) in Hrun.
      right. right. now apply (search_default_errors w _ _ Hrun).
  - rewrite (defaulting_without_file _ _ _ Hopen) in Hrun. cbn [snd] in Hrun.
    destruct (is_null (new_version q) || is_null (schema q));
      [| discriminate Hrun].
    inversion Hrun. left. split; reflexivity.
Qed.

Lemma only_three_errors_witness :
  (AllocateFile (server [] []) (control_filename (server [] []) "nope") = None
   /\ could_not_open "/usr/share/postgresql/extension/nope.control"
      = could_not_open (control_filename (server [] []) "nope"))
  \/ (exists file,
        AllocateFile (server [] []) (control_filename (server [] []) "nope")
        = Some file
        /\ ParseConfigFp (server [] []) file (control_filename (server [] []) "nope")
           = inl (could_not_open "/usr/share/postgresql/extension/nope.control"))
  \/ could_not_open "/usr/share/postgresql/extension/nope.control"
     = no_schema_error.
Proof.
  apply (only_three_errors (server [] []) "nope" [cascade] unset
           (could_not_open "/usr/share/postgresql/extension/nope.control")).
  reflexivity.
Defined.
